(** * Robot spawner / frame capture window ([spawn_capture.py])

    A shallow embedding of the [RSFCApp] window class: its three callbacks
    [spawn_robot], [update_camera_feed] and [capture_frame] become functions
    over an explicit program state (the window's attributes and widgets, the
    working directory, the ROS side).  Library calls (PyQt5, rospy,
    cv_bridge, [os], [datetime]) are embedded with their documented
    behaviour, the ways they fail included: a call returns, raises, or is
    still blocked, and a file-system call may be refused by the operating
    system. *)

From Stdlib Require Import ZArith Lia Bool List Ascii.
From Stdlib Require Import Strings.Byte.
From Stdlib Require Import Floats.SpecFloat.
From stdpp Require Import gmap strings list.

(** ** Python numbers

    [QSpinBox.value()] yields a Python [int], [QDoubleSpinBox.value()] a
    Python [float] (an IEEE-754 binary64).  Both kinds are kept, since the
    [.ui] file that chooses between them is not part of the sources. *)

Module Py.

Definition prec : Z := 53.
Definition emax : Z := 1024.

Inductive num :=
| Int (n : Z)
| Float (f : spec_float).

(** A [float] object always holds a well-formed binary64. *)
Definition wf (v : num) : bool :=
  match v with
  | Int _ => true
  | Float f => valid_binary prec emax f
  end.

(** [float(n)] for the only integer literal the program multiplies by. *)
Definition float_minus_one : spec_float := S754_finite true 4503599627370496 (-52).

(** [a * -1]: the right operand is the [int] literal [-1]; with a [float]
    on the left it is first converted to [-1.0]. *)
Definition mul_minus_one (a : num) : num :=
  match a with
  | Int n => Int (n * -1)
  | Float f => Float (SFmul prec emax f float_minus_one)
  end.

(** Unary minus, [-a]. *)
Definition neg (a : num) : num :=
  match a with
  | Int n => Int (- n)
  | Float f => Float (SFopp f)
  end.

End Py.

(** ** ROS messages ([geometry_msgs], [gazebo_msgs])

    Fields are Python attributes: they hold whatever number is assigned. *)

Module Point.
Record t := mk { x : Py.num; y : Py.num; z : Py.num }.
Definition default : t := mk (Py.Float (S754_zero false)) (Py.Float (S754_zero false)) (Py.Float (S754_zero false)).
Definition set_x (v : Py.num) (p : t) : t := mk v (y p) (z p).
Definition set_y (v : Py.num) (p : t) : t := mk (x p) v (z p).
Definition set_z (v : Py.num) (p : t) : t := mk (x p) (y p) v.
End Point.

Module Quaternion.
Record t := mk { x : Py.num; y : Py.num; z : Py.num; w : Py.num }.
Definition default : t :=
  mk (Py.Float (S754_zero false)) (Py.Float (S754_zero false))
     (Py.Float (S754_zero false)) (Py.Float (S754_zero false)).
Definition set_x (v : Py.num) (q : t) : t := mk v (y q) (z q) (w q).
Definition set_y (v : Py.num) (q : t) : t := mk (x q) v (z q) (w q).
Definition set_z (v : Py.num) (q : t) : t := mk (x q) (y q) v (w q).
Definition set_w (v : Py.num) (q : t) : t := mk (x q) (y q) (z q) v.
End Quaternion.

Module Pose.
Record t := mk { position : Point.t; orientation : Quaternion.t }.
Definition default : t := mk Point.default Quaternion.default.
Definition upd_position (f : Point.t -> Point.t) (p : t) : t :=
  mk (f (position p)) (orientation p).
Definition upd_orientation (f : Quaternion.t -> Quaternion.t) (p : t) : t :=
  mk (position p) (f (orientation p)).
End Pose.

Module Twist.
Record t := mk { linear : Point.t; angular : Point.t }.
Definition default : t := mk Point.default Point.default.
End Twist.

Module ModelState.
Record t := mk {
  model_name : string;
  pose : Pose.t;
  twist : Twist.t;
  reference_frame : string }.
Definition default : t := mk "" Pose.default Twist.default "".
Definition set_model_name (s : string) (m : t) : t :=
  mk s (pose m) (twist m) (reference_frame m).
Definition upd_pose (f : Pose.t -> Pose.t) (m : t) : t :=
  mk (model_name m) (f (pose m)) (twist m) (reference_frame m).
End ModelState.

(** [SetModelStateRequest()]: every field at its message default. *)
Record SetModelStateRequest := { model_state : ModelState.t }.

Definition SetModelStateRequest_new : SetModelStateRequest :=
  {| model_state := ModelState.default |}.

Definition upd_model_state (f : ModelState.t -> ModelState.t)
    (msg : SetModelStateRequest) : SetModelStateRequest :=
  {| model_state := f (model_state msg) |}.

(** The five numeric input widgets read by [spawn_robot]. *)
Record Inputs := {
  coordinate_x : Py.num;
  coordinate_y : Py.num;
  coordinate_z : Py.num;
  orientation_z : Py.num;
  orientation_w : Py.num }.

(** Lines 49-63 of [spawn_robot]: read the widgets, then assign the request
    fields one after the other. *)
Definition build_request (i : Inputs) : SetModelStateRequest :=
  let coordinate_x := coordinate_x i in
  let coordinate_y := coordinate_y i in
  let coordinate_z := coordinate_z i in
  let orientation_z := orientation_z i in
  let orientation_w := orientation_w i in
  let msg := SetModelStateRequest_new in
  let msg := upd_model_state (ModelState.set_model_name "R1") msg in
  let msg := upd_model_state (ModelState.upd_pose (Pose.upd_position
               (Point.set_x (Py.mul_minus_one coordinate_x)))) msg in
  let msg := upd_model_state (ModelState.upd_pose (Pose.upd_position
               (Point.set_y (Py.mul_minus_one coordinate_y)))) msg in
  let msg := upd_model_state (ModelState.upd_pose (Pose.upd_position
               (Point.set_z coordinate_z))) msg in
  let msg := upd_model_state (ModelState.upd_pose (Pose.upd_orientation
               (Quaternion.set_x (Py.Int 0)))) msg in
  let msg := upd_model_state (ModelState.upd_pose (Pose.upd_orientation
               (Quaternion.set_y (Py.Int 0)))) msg in
  let msg := upd_model_state (ModelState.upd_pose (Pose.upd_orientation
               (Quaternion.set_z orientation_z))) msg in
  let msg := upd_model_state (ModelState.upd_pose (Pose.upd_orientation
               (Quaternion.set_w orientation_w))) msg in
  msg.

(** ** Images

    [sensor_msgs/Image] as the subscriber receives it; the stream is fixed at
    three bytes per pixel in blue-green-red order. *)

Record Image := {
  msg_height : nat;
  msg_width : nat;
  msg_data : list byte }.

(** A [numpy] array of bytes: its shape and the buffer it views. *)
Module np.
Record ndarray := {
  shape : nat * nat * nat;
  data : list byte }.
End np.

(** A buffer holds the height x width x 3 bytes of its message. *)
Definition decodable (img_msg : Image) : bool :=
  3 * msg_width img_msg * msg_height img_msg <=? length (msg_data img_msg).

Inductive Format := Format_RGB888.

(** A [QImage]: a pixel buffer read scan line by scan line. *)
Record QImage := {
  width : nat;
  height : nat;
  bytesPerLine : nat;
  format : Format;
  bits : list byte }.

(** [QImage(data, width, height, bytesPerLine, format)] wraps the buffer. *)
Definition QImage_new (data : list byte) (width height bytesPerLine : nat)
    (format : Format) : QImage :=
  {| width := width; height := height; bytesPerLine := bytesPerLine;
     format := format; bits := data |}.

Definition scanLine (img : QImage) (row : nat) : list byte :=
  take (bytesPerLine img) (drop (row * bytesPerLine img) (bits img)).

Record QRgb := { qRed : byte; qGreen : byte; qBlue : byte }.

(** [QImage.pixel]: in [Format_RGB888] a pixel is the three bytes red,
    green, blue at offset [3 * col] of its scan line. *)
Definition pixel (img : QImage) (row col : nat) : option QRgb :=
  if (row <? height img) && (col <? width img) then
    match format img with
    | Format_RGB888 =>
        r ← scanLine img row !! (3 * col);
        g ← scanLine img row !! (3 * col + 1);
        b ← scanLine img row !! (3 * col + 2);
        Some {| qRed := r; qGreen := g; qBlue := b |}
    end
  else None.

(** Scan lines of an image allocated by Qt are padded to 32 bits. *)
Definition aligned_bytesPerLine (width : nat) : nat := (3 * width + 3) / 4 * 4.

Definition byte_at (line : list byte) (i : nat) : byte := default x00 (line !! i).

Definition swapped_pixel (line : list byte) (col : nat) : list byte :=
  [byte_at line (3 * col + 2); byte_at line (3 * col + 1); byte_at line (3 * col)].

Definition swapped_line (img : QImage) (row : nat) : list byte :=
  flat_map (swapped_pixel (scanLine img row)) (seq 0 (width img))
  ++ replicate (aligned_bytesPerLine (width img) - 3 * width img) x00.

(** [QImage.rgbSwapped()]: a fresh image of the same size and format in
    which every pixel has its red and blue bytes exchanged. *)
Definition rgbSwapped (img : QImage) : QImage :=
  {| width := width img; height := height img;
     bytesPerLine := aligned_bytesPerLine (width img);
     format := format img;
     bits := flat_map (swapped_line img) (seq 0 (height img)) |}.

Record QPixmap := { toImage : QImage }.

Definition QPixmap_fromImage (img : QImage) : QPixmap := {| toImage := img |}.

(** [QImage.isNull()]: an image without pixels. *)
Definition isNull (img : QImage) : bool := (width img =? 0) || (height img =? 0).

(** A [QImage] wrapper object defines neither [__bool__] nor [__len__], so
    Python's truth test of it is the default one for objects. *)
Definition QImage_truth (img : QImage) : bool := true.

(** Truth value of the [current_frame] attribute: [None] is false. *)
Definition truth (slot : option QImage) : bool :=
  match slot with
  | None => false
  | Some img => QImage_truth img
  end.

(** ** Wall clock and [strftime]

    The wall clock read by [datetime.now()] shows a year of four digits
    (1000..9999) and the other fields in their calendar ranges.  The
    directives are embedded for such readings: [%Y] prints the four digits of
    the year, the others two digits with a leading zero. *)

Record datetime := {
  year : nat; month : nat; day : nat;
  hour : nat; minute : nat; second : nat;
  microsecond : nat }.

Definition digit (n : nat) : ascii := ascii_of_nat (48 + n mod 10).

Definition zero_pad2 (n : nat) : string :=
  String (digit (n / 10)) (String (digit n) "").

Definition zero_pad4 (n : nat) : string :=
  String (digit (n / 1000)) (String (digit (n / 100)) (zero_pad2 n)).

(** The conversion directives the program uses. *)
Definition directive (dt : datetime) (c : ascii) : string :=
  match c with
  | "Y"%char => zero_pad4 (year dt)
  | "m"%char => zero_pad2 (month dt)
  | "d"%char => zero_pad2 (day dt)
  | "H"%char => zero_pad2 (hour dt)
  | "M"%char => zero_pad2 (minute dt)
  | "S"%char => zero_pad2 (second dt)
  | _ => String "%"%char (String c "")
  end.

(** [dt.strftime(fmt)]: directives are expanded, other characters copied. *)
Fixpoint strftime (dt : datetime) (fmt : string) : string :=
  match fmt with
  | "" => ""
  | String c rest =>
      match c, rest with
      | "%"%char, String d rest' => directive dt d +:+ strftime dt rest'
      | _, _ => String c (strftime dt rest)
      end
  end.

(** Two clock readings fall in the same wall-clock second. *)
Definition same_second (a b : datetime) : Prop :=
  year a = year b ∧ month a = month b ∧ day a = day b ∧
  hour a = hour b ∧ minute a = minute b ∧ second a = second b.

Definition is_digit (c : ascii) : bool :=
  (48 <=? nat_of_ascii c) && (nat_of_ascii c <=? 57).

Definition is_upper (c : ascii) : bool :=
  (65 <=? nat_of_ascii c) && (nat_of_ascii c <=? 90).

(** [has_layout layout s]: [s] follows a layout such as
    [YYYY-MM-DD_HH:MM:SS], where a capital letter stands for one decimal
    digit and any other character for itself. *)
Fixpoint has_layout (layout s : string) : bool :=
  match layout, s with
  | "", "" => true
  | String l layout', String c s' =>
      (if is_upper l then is_digit c else bool_decide (l = c))
      && has_layout layout' s'
  | _, _ => false
  end.

(** ** Paths *)

Fixpoint ends_with_slash (s : string) : bool :=
  match s with
  | "" => false
  | String c "" => bool_decide (c = "/"%char)
  | String _ rest => ends_with_slash rest
  end.

Definition starts_with_slash (s : string) : bool :=
  match s with
  | String c _ => bool_decide (c = "/"%char)
  | "" => false
  end.

(** [os.path.join(a, b)] on POSIX. *)
Definition os_path_join (a b : string) : string :=
  if starts_with_slash b then b
  else if bool_decide (a = "") || ends_with_slash a then a +:+ b
  else a +:+ "/" +:+ b.

(** The text before and after the last slash of a path, if it has one. *)
Fixpoint rsplit_slash (s : string) : option (string * string) :=
  match s with
  | "" => None
  | String c rest =>
      match rsplit_slash rest with
      | Some (h, t) => Some (String c h, t)
      | None => if bool_decide (c = "/"%char) then Some ("", rest) else None
      end
  end.

Fixpoint rstrip_slashes (s : string) : string :=
  match s with
  | "" => ""
  | String c rest =>
      match rstrip_slashes rest with
      | "" => if bool_decide (c = "/"%char) then "" else String c ""
      | r => String c r
      end
  end.

(** [os.path.dirname(path)] on POSIX: the part up to the last slash, without
    its trailing slashes unless it consists of slashes only; empty for a
    bare file name. *)
Definition os_path_dirname (path : string) : string :=
  match rsplit_slash path with
  | None => ""
  | Some (h, _) =>
      let head := h +:+ "/" in
      match rstrip_slashes head with
      | "" => head
      | d => d
      end
  end.

Fixpoint no_slash (s : string) : bool :=
  match s with
  | "" => true
  | String c rest => negb (bool_decide (c = "/"%char)) && no_slash rest
  end.

(** ** Program state *)

(** The window: the widgets loaded from the [.ui] file and the attribute
    [current_frame]. *)
Record Window := {
  inputs : Inputs;
  camera_feed : option QPixmap;
  capture_frame_output : string;
  current_frame : option QImage }.

(** A file written by [QImage.save]: the encoding and the picture encoded. *)
Record File := { file_format : string; file_image : QImage }.

(** The working directory: the directories and the regular files by path,
    and the symbolic links whose target is missing. *)
Record FileSystem := {
  dirs : gset string;
  files : gmap string File;
  dangling : gset string }.

Inductive fs_call :=
| Exists (path : string)
| Makedirs (path : string)
| Save (path : string) (fmt : string).

Inductive reply :=
| Response (success : bool) (status_message : string)
| Failure (reason : string).

(** The ROS side: polls of the master made so far, requests sent, and the
    error log written by [rospy.logerr]. *)
Record Ros := {
  master_polls : nat;
  service_calls : list (string * SetModelStateRequest);
  rosout : list string }.

Record World := {
  win : Window;
  fs : FileSystem;
  fs_calls : list fs_call;
  clock_reads : nat;
  ros : Ros }.

(** What the program does not control: the readings of the wall clock, when
    the relocation service is registered with the master, how the service
    answers the n-th request, and whether the operating system carries out
    the n-th file-system call the program makes (permissions, disk space). *)
Record Env := {
  clock : nat -> datetime;
  registered : nat -> bool;
  respond : nat -> SetModelStateRequest -> reply;
  io_ok : nat -> bool }.

Definition with_win (f : Window -> Window) (w : World) : World :=
  {| win := f (win w); fs := fs w; fs_calls := fs_calls w;
     clock_reads := clock_reads w; ros := ros w |}.

Definition with_fs (f : FileSystem -> FileSystem) (c : fs_call) (w : World) : World :=
  {| win := win w; fs := f (fs w); fs_calls := fs_calls w ++ [c];
     clock_reads := clock_reads w; ros := ros w |}.

Definition with_ros (f : Ros -> Ros) (w : World) : World :=
  {| win := win w; fs := fs w; fs_calls := fs_calls w;
     clock_reads := clock_reads w; ros := f (ros w) |}.

Definition tick (w : World) : World :=
  {| win := win w; fs := fs w; fs_calls := fs_calls w;
     clock_reads := S (clock_reads w); ros := ros w |}.

(** ** Outcomes and sequencing *)

Inductive exn :=
| FileExistsError (path : string)
| PermissionError (path : string)
| TypeError (text : string)
| ServiceException (reason : string).

(** A call returns, raises, or is still blocked when observation stops. *)
Inductive outcome (A : Type) :=
| Returns (a : A) (w : World)
| Raises (e : exn) (w : World)
| Blocked (w : World).
Arguments Returns {A} a w.
Arguments Raises {A} e w.
Arguments Blocked {A} w.

Definition M (A : Type) : Type := World -> outcome A.

#[global] Instance M_ret : MRet M := λ A a w, Returns a w.

#[global] Instance M_bind : MBind M := λ A B k m w,
  match m w with
  | Returns a w' => k a w'
  | Raises e w' => Raises e w'
  | Blocked w' => Blocked w'
  end.

Definition gets {A : Type} (f : World -> A) : M A := λ w, Returns (f w) w.
Definition modify (f : World -> World) : M unit := λ w, Returns tt (f w).

(** [try: body except <handled> as e: handler e]. *)
Definition try_except {A : Type} (body : M A) (handler : exn -> option (M A)) : M A :=
  λ w, match body w with
       | Raises e w' =>
           match handler e with
           | Some h => h w'
           | None => Raises e w'
           end
       | r => r
       end.

Definition world_of {A : Type} (r : outcome A) : World :=
  match r with
  | Returns _ w | Raises _ w | Blocked w => w
  end.

(** ** Library calls *)

(** [CvBridge.imgmsg_to_cv2(data, "bgr8")]: for a stream already in that
    encoding the array is a view of the message buffer of shape
    (height, width, 3); [numpy] refuses a buffer that is too small. *)
Definition imgmsg_to_cv2 (img_msg : Image) (desired_encoding : string)
    : M np.ndarray := λ w,
  if decodable img_msg
  then Returns {| np.shape := (msg_height img_msg, msg_width img_msg, 3);
                  np.data := msg_data img_msg |} w
  else Raises (TypeError "buffer is too small for requested array") w.

(** Something the path resolves to: a directory or a file. *)
Definition path_exists (fsys : FileSystem) (path : string) : bool :=
  bool_decide (path ∈ dirs fsys) || bool_decide (path ∈ dom (files fsys)).

(** Something is at the path, be it a link that leads nowhere. *)
Definition path_lexists (fsys : FileSystem) (path : string) : bool :=
  path_exists fsys path || bool_decide (path ∈ dangling fsys).

(** [os.path.exists(path)]: false for a broken link, and when the operating
    system refuses to look. *)
Definition os_path_exists (env : Env) (path : string) : M bool := λ w,
  Returns (path_exists (fs w) path && io_ok env (length (fs_calls w)))
          (with_fs id (Exists path) w).

(** [os.makedirs(path)]: raises when anything is at the path already, and
    when the operating system refuses to make the directory. *)
Definition os_makedirs (env : Env) (path : string) : M unit := λ w,
  if path_lexists (fs w) path
  then Raises (FileExistsError path) (with_fs id (Makedirs path) w)
  else if io_ok env (length (fs_calls w))
  then Returns tt
         (with_fs (λ f, {| dirs := {[path]} ∪ dirs f; files := files f;
                           dangling := dangling f |})
                  (Makedirs path) w)
  else Raises (PermissionError path) (with_fs id (Makedirs path) w).

(** [datetime.now()]: one reading of the wall clock. *)
Definition datetime_now (env : Env) : M datetime := λ w,
  Returns (clock env (clock_reads w)) (tick w).

(** The directory that is to hold the file is there. *)
Definition parent_is_dir (fsys : FileSystem) (path : string) : bool :=
  bool_decide (os_path_dirname path = "")
  || bool_decide (os_path_dirname path ∈ dirs fsys).

(** Whether [img.save(path, fmt)] writes: not for an image without pixels,
    not without the directory, not onto a directory, not when the operating
    system refuses the n-th call. *)
Definition save_ok (env : Env) (img : QImage) (fsys : FileSystem)
    (path : string) (n : nat) : bool :=
  negb (isNull img) && parent_is_dir fsys path
  && negb (bool_decide (path ∈ dirs fsys)) && io_ok env n.

(** The file system with [file] at [path]: created, overwritten, or made
    through a link that led nowhere. *)
Definition written (fsys : FileSystem) (path : string) (file : File) : FileSystem :=
  {| dirs := dirs fsys; files := <[path := file]> (files fsys);
     dangling := dangling fsys ∖ {[path]} |}.

(** [img.save(path, fmt)]: returns whether it wrote the file; when it did
    not, the file system is as before. *)
Definition QImage_save (env : Env) (img : QImage) (path fmt : string) : M bool := λ w,
  let ok := save_ok env img (fs w) path (length (fs_calls w)) in
  Returns ok
    (with_fs (λ f, if ok
                   then written f path {| file_format := fmt; file_image := img |}
                   else f)
             (Save path fmt) w).

(** [self.capture_frame_output.setText(text)]. *)
Definition setText (text : string) : M unit :=
  modify (with_win (λ v, {| inputs := inputs v; camera_feed := camera_feed v;
                            capture_frame_output := text;
                            current_frame := current_frame v |})).

(** [self.camera_feed.setPixmap(pixmap)]. *)
Definition setPixmap (pixmap : QPixmap) : M unit :=
  modify (with_win (λ v, {| inputs := inputs v; camera_feed := Some pixmap;
                            capture_frame_output := capture_frame_output v;
                            current_frame := current_frame v |})).

(** Assignment to [self.current_frame]. *)
Definition set_current_frame (slot : option QImage) : M unit :=
  modify (with_win (λ v, {| inputs := inputs v; camera_feed := camera_feed v;
                            capture_frame_output := capture_frame_output v;
                            current_frame := slot |})).

Definition poll (w : World) : World :=
  with_ros (λ r, {| master_polls := S (master_polls r);
                    service_calls := service_calls r; rosout := rosout r |}) w.

(** [rospy.wait_for_service(name)] without a timeout: polls the master until
    the service is registered.  [fuel] bounds how many polls are observed;
    when it runs out the call is still blocked. *)
Fixpoint wait_for_service (env : Env) (fuel : nat) (name : string) : M unit := λ w,
  match fuel with
  | 0 => Blocked w
  | S fuel' =>
      if registered env (master_polls (ros w))
      then Returns tt (poll w)
      else wait_for_service env fuel' name (poll w)
  end.

(** Calling a [rospy.ServiceProxy]: the request goes out; a failure of the
    call (service gone, request rejected) raises [ServiceException]. *)
Definition ServiceProxy_call (env : Env) (name : string)
    (msg : SetModelStateRequest) : M reply := λ w,
  let n := length (service_calls (ros w)) in
  let w' := with_ros (λ r, {| master_polls := master_polls r;
                              service_calls := service_calls r ++ [(name, msg)];
                              rosout := rosout r |}) w in
  match respond env n msg with
  | Failure reason => Raises (ServiceException reason) w'
  | r => Returns r w'
  end.

(** [rospy.logerr(e)]. *)
Definition rospy_logerr (text : string) : M unit :=
  modify (with_ros (λ r, {| master_polls := master_polls r;
                            service_calls := service_calls r;
                            rosout := rosout r ++ [text] |})).

(** ** The window's methods *)

(** Line 41 of [__init__]: no frame has been received yet. *)
Definition RSFCApp_init (w : World) : World :=
  with_win (λ v, {| inputs := inputs v; camera_feed := camera_feed v;
                    capture_frame_output := capture_frame_output v;
                    current_frame := None |}) w.

Definition spawn_robot (env : Env) (fuel : nat) : M unit :=
  i ← gets (λ w, inputs (win w));
  let msg := build_request i in
  try_except
    (wait_for_service env fuel "/gazebo/set_model_state";;
     let set_state := ServiceProxy_call env "/gazebo/set_model_state" in
     set_state msg;;
     mret tt)
    (λ e, match e with
          | ServiceException reason => Some (rospy_logerr reason)
          | _ => None
          end).

Definition update_camera_feed (data : Image) : M unit :=
  cv_image ← imgmsg_to_cv2 data "bgr8";
  let '(height, width, channel) := np.shape cv_image in
  let bytes_per_line := 3 * width in
  set_current_frame
    (Some (rgbSwapped (QImage_new (np.data cv_image) width height
                         bytes_per_line Format_RGB888)));;
  frame ← gets (λ w, current_frame (win w));
  match frame with
  | Some img => setPixmap (QPixmap_fromImage img)
  | None => mret tt
  end.

Definition capture_frame (env : Env) : M unit :=
  frame ← gets (λ w, current_frame (win w));
  match frame with
  | Some img =>
      if truth frame then
        let folder_path := "screenshots" in
        there ← os_path_exists env folder_path;
        (if negb there then os_makedirs env folder_path else mret tt);;
        now ← datetime_now env;
        let timestamp := strftime now "%Y-%m-%d_%H:%M:%S" in
        let screenshot_path :=
          os_path_join folder_path
            ("camera_feed_screenshot_" +:+ timestamp +:+ ".png") in
        QImage_save env img screenshot_path "PNG";;
        setText ("Screenshot saved at " +:+ timestamp +:+ " in 'pwd/"
                 +:+ folder_path +:+ "'")
      else
        setText "No screenshot captured. Camera feed might be empty."
  | None =>
      setText "No screenshot captured. Camera feed might be empty."
  end.

(** ** Events handled by the window *)

Inductive event :=
| spawn_clicked
| capture_clicked
| image_received (data : Image).

Definition dispatch (env : Env) (fuel : nat) (ev : event) : M unit :=
  match ev with
  | spawn_clicked => spawn_robot env fuel
  | capture_clicked => capture_frame env
  | image_received data => update_camera_feed data
  end.

Fixpoint run (env : Env) (fuel : nat) (evs : list event) : M unit :=
  match evs with
  | [] => mret tt
  | ev :: evs' => dispatch env fuel ev;; run env fuel evs'
  end.

(** A session in which a handler that raises is passed over: its exception
    is reported and the window goes on from the state the handler left (a
    failed subscriber callback is logged by rospy).  [None] when a handler is
    still blocked. *)
Fixpoint handled (env : Env) (fuel : nat) (evs : list event) (w : World)
    : option World :=
  match evs with
  | [] => Some w
  | ev :: evs' =>
      match dispatch env fuel ev w with
      | Blocked _ => None
      | r => handled env fuel evs' (world_of r)
      end
  end.

(** The bitmap [update_camera_feed] makes of an image message (lines 77-80). *)
Definition decode (data : Image) : QImage :=
  rgbSwapped (QImage_new (msg_data data) (msg_width data) (msg_height data)
                (3 * msg_width data) Format_RGB888).

Definition delivered (evs : list event) : Prop :=
  ∃ data, image_received data ∈ evs.

(** The bitmap of the last image message of an event sequence that could be
    decoded, or what the slot held before when the sequence has none. *)
Fixpoint latest_decoded (evs : list event) (before : option QImage) : option QImage :=
  match evs with
  | [] => before
  | image_received data :: evs' =>
      latest_decoded evs' (if decodable data then Some (decode data) else before)
  | _ :: evs' => latest_decoded evs' before
  end.

(** Some image message of the sequence could be decoded. *)
Definition decoded (evs : list event) : Prop :=
  ∃ data, image_received data ∈ evs ∧ decodable data = true.

(** ** Vocabulary of the statements *)

(** The timestamp [capture_frame] computes from the next clock reading. *)
Definition timestamp_at (env : Env) (w : World) : string :=
  strftime (clock env (clock_reads w)) "%Y-%m-%d_%H:%M:%S".

Definition screenshot_path (timestamp : string) : string :=
  "screenshots/camera_feed_screenshot_" +:+ timestamp +:+ ".png".

Definition PNG (img : QImage) : File :=
  {| file_format := "PNG"; file_image := img |}.

(** Files present after a call that were not there before it. *)
Definition new_files (before after : World) : gset string :=
  dom (files (fs after)) ∖ dom (files (fs before)).

(** The paths written by [QImage.save], in call order. *)
Fixpoint saves (calls : list fs_call) : list string :=
  match calls with
  | [] => []
  | Save path _ :: calls' => path :: saves calls'
  | _ :: calls' => saves calls'
  end.

(** The world after [update_camera_feed] has stored a message. *)
Definition displayed (data : Image) (w : World) : World :=
  with_win (λ v, {| inputs := inputs v;
                    camera_feed := Some (QPixmap_fromImage (decode data));
                    capture_frame_output := capture_frame_output v;
                    current_frame := Some (decode data) |}) w.

(** What [os.path.exists] answers to [capture_frame]. *)
Definition exists_answer (env : Env) (w : World) : bool :=
  path_exists (fs w) "screenshots" && io_ok env (length (fs_calls w)).

(** The exception, if any, out of the [os.makedirs] call of [capture_frame]. *)
Definition makedirs_raises (env : Env) (w : World) : option exn :=
  if exists_answer env w then None
  else if path_lexists (fs w) "screenshots" then Some (FileExistsError "screenshots")
  else if io_ok env (S (length (fs_calls w))) then None
  else Some (PermissionError "screenshots").

(** The file system and the calls made when [capture_frame] reaches its
    clock reading. *)
Definition fs_before_save (env : Env) (w : World) : FileSystem :=
  if exists_answer env w then fs w
  else {| dirs := {["screenshots"]} ∪ dirs (fs w); files := files (fs w);
          dangling := dangling (fs w) |}.

Definition calls_before_save (env : Env) (w : World) : list fs_call :=
  fs_calls w ++ Exists "screenshots"
    :: (if exists_answer env w then [] else [Makedirs "screenshots"]).

(** Whether the [save] call of [capture_frame] writes its file. *)
Definition capture_saves (env : Env) (img : QImage) (w : World) : bool :=
  save_ok env img (fs_before_save env w) (screenshot_path (timestamp_at env w))
    (length (calls_before_save env w)).

(** The world after a capture with a frame in the slot, when [os.makedirs]
    has not raised. *)
Definition captured (env : Env) (img : QImage) (w : World) : World :=
  let timestamp := timestamp_at env w in
  {| win := {| inputs := inputs (win w); camera_feed := camera_feed (win w);
               capture_frame_output :=
                 "Screenshot saved at " +:+ timestamp +:+ " in 'pwd/screenshots'";
               current_frame := current_frame (win w) |};
     fs := if capture_saves env img w
           then written (fs_before_save env w) (screenshot_path timestamp) (PNG img)
           else fs_before_save env w;
     fs_calls := calls_before_save env w ++ [Save (screenshot_path timestamp) "PNG"];
     clock_reads := S (clock_reads w);
     ros := ros w |}.

(** The operating system carries out the next [k] file-system calls. *)
Definition no_fault (env : Env) (w : World) (k : nat) : Prop :=
  ∀ i, i < k -> io_ok env (length (fs_calls w) + i) = true.

(** Nothing is at the path, or a directory is. *)
Definition free_or_directory (fsys : FileSystem) (path : string) : Prop :=
  path_lexists fsys path = false ∨ path ∈ dirs fsys.

(** [w'] differs from [w] at most in the number of polls of the master. *)
Definition only_polled (w w' : World) : Prop :=
  win w' = win w ∧ fs w' = fs w ∧ fs_calls w' = fs_calls w ∧
  clock_reads w' = clock_reads w ∧
  service_calls (ros w') = service_calls (ros w) ∧
  rosout (ros w') = rosout (ros w).

(** The request [spawn_robot] sends from a given state. *)
Definition request_of (w : World) : string * SetModelStateRequest :=
  ("/gazebo/set_model_state", build_request (inputs (win w))).

(** The answer the service gives to the next request of [spawn_robot]. *)
Definition next_reply (env : Env) (w : World) : reply :=
  respond env (length (service_calls (ros w))) (build_request (inputs (win w))).

(** The state after a request went out, and after an error was logged. *)
Definition sent (w1 : World) (request : string * SetModelStateRequest) : World :=
  with_ros (λ r, {| master_polls := master_polls r;
                    service_calls := service_calls r ++ [request];
                    rosout := rosout r |}) w1.

Definition logged (w1 : World) (text : string) : World :=
  with_ros (λ r, {| master_polls := master_polls r;
                    service_calls := service_calls r;
                    rosout := rosout r ++ [text] |}) w1.

(** ** Counting along an event sequence *)

(** Clicks on the spawn button. *)
Fixpoint spawn_clicks (evs : list event) : nat :=
  match evs with
  | [] => 0
  | spawn_clicked :: evs' => S (spawn_clicks evs')
  | _ :: evs' => spawn_clicks evs'
  end.


(** Calls of [os.makedirs] in a trace. *)
Fixpoint makedirs_calls (calls : list fs_call) : nat :=
  match calls with
  | [] => 0
  | Makedirs _ :: calls' => S (makedirs_calls calls')
  | _ :: calls' => makedirs_calls calls'
  end.

(** The preview shows the frame held in the slot. *)
Definition preview_in_sync (v : Window) : Prop :=
  ∀ img, current_frame v = Some img -> camera_feed v = Some (QPixmap_fromImage img).

(** ** Order of clock readings and of file names *)

(** A reading of the wall clock: a four-digit year and the other fields in
    their calendar ranges. *)
Definition valid_datetime (dt : datetime) : Prop :=
  1000 ≤ year dt < 100 * 100 ∧ 1 ≤ month dt ≤ 12 ∧ 1 ≤ day dt ≤ 31 ∧
  hour dt < 24 ∧ minute dt < 60 ∧ second dt < 60.

(** Lexicographic chaining of comparisons. *)
Definition then_compare (c d : comparison) : comparison :=
  match c with
  | Eq => d
  | _ => c
  end.

(** Which of two clock readings is earlier, to the second. *)
Definition compare_seconds (a b : datetime) : comparison :=
  then_compare (year a ?= year b)
    (then_compare (month a ?= month b)
       (then_compare (day a ?= day b)
          (then_compare (hour a ?= hour b)
             (then_compare (minute a ?= minute b) (second a ?= second b))))).


(** ** Sample data *)

Definition sample_inputs : Inputs :=
  {| coordinate_x := Py.Float (S754_finite false 6755399441055744 (-51));
     coordinate_y := Py.Int (-2);
     coordinate_z := Py.Float (S754_zero false);
     orientation_z := Py.Int 0;
     orientation_w := Py.Int 1 |}.

(** A 2x1 picture: one blue-ish and one red-ish pixel, in BGR order. *)
Definition sample_image : Image :=
  {| msg_height := 1; msg_width := 2;
     msg_data := [x01; x02; x03; x04; x05; x06] |}.

Definition sample_frame : QImage := decode sample_image.

(** A clock that advances by 250 ms per reading, a relocation service that
    is registered from the third poll on and rejects the first request. *)
Definition sample_env : Env :=
  {| clock := λ n, {| year := 2024; month := 3; day := 9;
                      hour := 14; minute := 5; second := 7 + n / 4;
                      microsecond := 250 * 1000 * (n mod 4) |};
     registered := λ n, 2 <=? n;
     respond := λ n _, if n =? 0 then Failure "model R1 does not exist"
                       else Response true "";
     io_ok := λ _, true |}.

(** The relocation service never shows up. *)
Definition absent_service_env : Env :=
  {| clock := clock sample_env;
     registered := λ _, false;
     respond := respond sample_env;
     io_ok := io_ok sample_env |}.

Definition fresh_world : World :=
  {| win := {| inputs := sample_inputs; camera_feed := None;
               capture_frame_output := ""; current_frame := None |};
     fs := {| dirs := ∅; files := ∅; dangling := ∅ |};
     fs_calls := [];
     clock_reads := 0;
     ros := {| master_polls := 0; service_calls := []; rosout := [] |} |}.

(** One frame has arrived; nothing has been captured yet. *)
Definition world_with_frame : World :=
  {| win := {| inputs := sample_inputs;
               camera_feed := Some (QPixmap_fromImage sample_frame);
               capture_frame_output := "";
               current_frame := Some sample_frame |};
     fs := {| dirs := ∅; files := ∅; dangling := ∅ |};
     fs_calls := [];
     clock_reads := 0;
     ros := {| master_polls := 0; service_calls := []; rosout := [] |} |}.

(** The same, after a first capture at 14:05:07. *)
Definition world_with_screenshot : World :=
  {| win := {| inputs := sample_inputs;
               camera_feed := Some (QPixmap_fromImage sample_frame);
               capture_frame_output :=
                 "Screenshot saved at 2024-03-09_14:05:07 in 'pwd/screenshots'";
               current_frame := Some sample_frame |};
     fs := {| dirs := {["screenshots"]};
              files := {[ "screenshots/camera_feed_screenshot_2024-03-09_14:05:07.png"
                          := PNG sample_frame ]};
              dangling := ∅ |};
     fs_calls := [Exists "screenshots"; Makedirs "screenshots";
                  Save "screenshots/camera_feed_screenshot_2024-03-09_14:05:07.png" "PNG"];
     clock_reads := 1;
     ros := {| master_polls := 0; service_calls := []; rosout := [] |} |}.

(** A session: a frame arrives, the robot is spawned, a screenshot is taken. *)
Definition sample_session : list event :=
  [image_received sample_image; spawn_clicked; capture_clicked].

(** A clock read once per second, with the service of [sample_env]. *)
Definition ticking_env : Env :=
  {| clock := λ n, {| year := 2024; month := 3; day := 9;
                      hour := 14; minute := 5; second := 7 + n;
                      microsecond := 0 |};
     registered := registered sample_env;
     respond := respond sample_env;
     io_ok := io_ok sample_env |}.

(** A message announcing 2x2 pixels with a buffer of six bytes. *)
Definition short_image : Image :=
  {| msg_height := 2; msg_width := 2;
     msg_data := [x01; x02; x03; x04; x05; x06] |}.

(** A frame has arrived, and a regular file named [screenshots] sits where
    the directory should be. *)
Definition world_with_blocker : World :=
  {| win := {| inputs := sample_inputs;
               camera_feed := Some (QPixmap_fromImage sample_frame);
               capture_frame_output := "";
               current_frame := Some sample_frame |};
     fs := {| dirs := ∅;
              files := {[ "screenshots" := PNG sample_frame ]};
              dangling := ∅ |};
     fs_calls := [];
     clock_reads := 0;
     ros := {| master_polls := 0; service_calls := []; rosout := [] |} |}.

(** A frame has arrived, and [screenshots] is a symbolic link to a place
    that does not exist. *)
Definition world_with_link : World :=
  {| win := win world_with_frame;
     fs := {| dirs := ∅; files := ∅; dangling := {["screenshots"]} |};
     fs_calls := [];
     clock_reads := 0;
     ros := {| master_polls := 0; service_calls := []; rosout := [] |} |}.

(** * Properties *)

(** ** Multiplying a binary64 by [-1.0] only flips its sign *)

Lemma SFmul_minus_one (f : spec_float) :
  valid_binary Py.prec Py.emax f = true ->
  SFmul Py.prec Py.emax f Py.float_minus_one = SFopp f.
Proof.
  destruct f as [s | s | | s m e]; simpl; intros Hv;
    try reflexivity; try (destruct s; reflexivity).
  unfold bounded, canonical_mantissa in Hv.
  apply andb_prop in Hv as [Hcan Hle].
  apply Z.eqb_eq in Hcan.
  assert (Hmul : (m * 4503599627370496)%positive = Pos.shiftl m 52).
  { rewrite Pos.mul_comm. reflexivity. }
  assert (Hdig : Z.pos (digits2_pos (Pos.shiftl m 52)) = (Z.pos (digits2_pos m) + 52)%Z).
  { cbv [Pos.shiftl Pos.iter]. cbn [digits2_pos]. rewrite !Pos2Z.inj_succ. lia. }
  rewrite Hmul. unfold binary_round_aux, shr_fexp.
  cbn [Zdigits2 shr_record_of_loc]. rewrite Hdig.
  replace (Z.pos (digits2_pos m) + 52 + (e + -52))%Z
    with (Z.pos (digits2_pos m) + e)%Z by lia.
  rewrite Hcan.
  replace (e - (e + -52))%Z with 52%Z by lia.
  assert (Hshr : SpecFloat.iter_pos shr_1 52%positive {| shr_m := Z.pos (Pos.shiftl m 52); shr_r := false; shr_s := false |}
                = {| shr_m := Z.pos m; shr_r := false; shr_s := false |}).
  { reflexivity. }
  unfold shr at 1. rewrite Hshr.
  cbn [shr_m loc_of_shr_record round_nearest_even Zdigits2].
  replace (e + -52 + 52)%Z with e by lia.
  rewrite Hcan, Z.sub_diag. cbn [shr shr_m].
  rewrite Hle. destruct s; reflexivity.
Qed.

(** ** Scan lines of a swapped image *)

Section UniformBlocks.
Context {A : Type} (f : nat -> list A) (L : nat).
Hypothesis f_length : ∀ j, length (f j) = L.

Lemma block_of_flat_map (s n i : nat) :
  i < n -> take L (drop (i * L) (flat_map f (seq s n))) = f (s + i).
Proof.
  revert s i. induction n as [|n IH]; intros s i Hi; [lia|].
  cbn [seq flat_map]. destruct i as [|i].
  - rewrite Nat.add_0_r. cbn [Nat.mul drop].
    by apply take_app_length'.
  - replace (S i * L) with (length (f s) + i * L) by (rewrite f_length; lia).
    rewrite drop_app_add, IH by lia. f_equal. lia.
Qed.

Lemma lookup_flat_map_block (s n i k : nat) :
  i < n -> k < L ->
  flat_map f (seq s n) !! (i * L + k) = f (s + i) !! k.
Proof.
  intros Hi Hk. rewrite <- (block_of_flat_map s n i Hi).
  by rewrite lookup_take_lt, lookup_drop.
Qed.
End UniformBlocks.

Lemma aligned_bytesPerLine_ge (w : nat) : 3 * w ≤ aligned_bytesPerLine w.
Proof.
  unfold aligned_bytesPerLine.
  pose proof (Nat.div_mod_eq (3 * w + 3) 4) as Hd.
  pose proof (Nat.mod_upper_bound (3 * w + 3) 4) as Hm. lia.
Qed.

Lemma length_swapped_pixels (line : list byte) (s n : nat) :
  length (flat_map (swapped_pixel line) (seq s n)) = 3 * n.
Proof.
  revert s. induction n as [|n IH]; intros s; [done|].
  cbn [seq flat_map]. rewrite length_app, IH. cbn. lia.
Qed.

Lemma length_swapped_line (img : QImage) (row : nat) :
  length (swapped_line img row) = aligned_bytesPerLine (width img).
Proof.
  unfold swapped_line.
  rewrite length_app, length_swapped_pixels, length_replicate.
  pose proof (aligned_bytesPerLine_ge (width img)). lia.
Qed.

Lemma scanLine_rgbSwapped (img : QImage) (row : nat) :
  row < height img -> scanLine (rgbSwapped img) row = swapped_line img row.
Proof.
  intros Hrow. unfold scanLine, rgbSwapped. cbn [bytesPerLine bits].
  by rewrite (block_of_flat_map _ _ (length_swapped_line img)).
Qed.

Lemma lookup_swapped_line (img : QImage) (row col k : nat) :
  col < width img -> k < 3 ->
  swapped_line img row !! (3 * col + k)
  = swapped_pixel (scanLine img row) col !! k.
Proof.
  intros Hcol Hk. unfold swapped_line.
  rewrite lookup_app_l by (rewrite length_swapped_pixels; lia).
  rewrite (Nat.mul_comm 3 col).
  by rewrite (lookup_flat_map_block (swapped_pixel (scanLine img row)) 3
                (λ _, eq_refl) 0 (width img) col k).
Qed.

(** A pixel of the swapped image, in terms of the bytes of the source. *)
Lemma pixel_rgbSwapped (img : QImage) (row col : nat) :
  row < height img -> col < width img ->
  pixel (rgbSwapped img) row col
  = Some {| qRed := byte_at (scanLine img row) (3 * col + 2);
            qGreen := byte_at (scanLine img row) (3 * col + 1);
            qBlue := byte_at (scanLine img row) (3 * col) |}.
Proof.
  intros Hrow Hcol. unfold pixel.
  replace (format (rgbSwapped img)) with (format img) by done.
  replace (height (rgbSwapped img)) with (height img) by done.
  replace (width (rgbSwapped img)) with (width img) by done.
  apply Nat.ltb_lt in Hrow as Hrow'. apply Nat.ltb_lt in Hcol as Hcol'.
  rewrite Hrow', Hcol'. cbn [andb]. destruct (format img).
  rewrite scanLine_rgbSwapped by done.
  replace (3 * col) with (3 * col + 0) at 1 by lia.
  rewrite !lookup_swapped_line by (done || lia).
  reflexivity.
Qed.

(** [update_camera_feed] stores and shows the bitmap of a message it can
    decode; on a buffer that is too small it raises with nothing changed. *)
Lemma update_camera_feed_outcome (data : Image) (w : World) :
  update_camera_feed data w
  = if decodable data then Returns tt (displayed data w)
    else Raises (TypeError "buffer is too small for requested array") w.
Proof.
  unfold update_camera_feed, imgmsg_to_cv2, mbind, M_bind.
  destruct (decodable data); reflexivity.
Qed.

Lemma dense_decodable (data : Image) :
  length (msg_data data) = 3 * msg_width data * msg_height data ->
  decodable data = true.
Proof. intros Hlen. unfold decodable. apply Nat.leb_le. lia. Qed.

(** In a dense buffer every byte of every pixel is present. *)
Lemma dense_buffer_lookup (buf : list byte) (W H row col k : nat) :
  length buf = 3 * W * H -> row < H -> col < W -> k < 3 ->
  ∃ b, buf !! (row * (3 * W) + 3 * col + k) = Some b ∧
       byte_at (take (3 * W) (drop (row * (3 * W)) buf)) (3 * col + k) = b.
Proof.
  intros Hlen Hrow Hcol Hk.
  destruct (lookup_lt_is_Some_2 buf (row * (3 * W) + 3 * col + k)) as [b Hb].
  { rewrite Hlen. nia. }
  exists b. split; [done|]. unfold byte_at.
  rewrite lookup_take_lt, lookup_drop by lia.
  by rewrite Nat.add_assoc, Hb.
Qed.

(** Claim C2.  For an image message of width W and height H whose buffer is
    dense, three bytes per pixel and 3*W*H long, the bitmap stored by
    [update_camera_feed] has, at every pixel (r, c) with r < H and c < W, the
    three bytes of the buffer's pixel in reversed channel order: its red
    byte is the buffer's third byte, its green byte the second, its blue
    byte the first. *)
Theorem update_camera_feed_reverses_channels
    (data : Image) (w : World) (r c : nat) :
  length (msg_data data) = 3 * msg_width data * msg_height data ->
  r < msg_height data ->
  c < msg_width data ->
  let offset := r * (3 * msg_width data) + 3 * c in
  ∃ b0 b1 b2 frame,
    msg_data data !! offset = Some b0 ∧
    msg_data data !! (offset + 1) = Some b1 ∧
    msg_data data !! (offset + 2) = Some b2 ∧
    current_frame (win (world_of (update_camera_feed data w))) = Some frame ∧
    width frame = msg_width data ∧ height frame = msg_height data ∧
    pixel frame r c = Some {| qRed := b2; qGreen := b1; qBlue := b0 |}.
Proof.
  intros Hlen Hr Hc offset.
  destruct (dense_buffer_lookup _ _ _ r c 0 Hlen Hr Hc) as (b0 & H0 & E0); [lia|].
  destruct (dense_buffer_lookup _ _ _ r c 1 Hlen Hr Hc) as (b1 & H1 & E1); [lia|].
  destruct (dense_buffer_lookup _ _ _ r c 2 Hlen Hr Hc) as (b2 & H2 & E2); [lia|].
  exists b0, b1, b2, (decode data). subst offset.
  rewrite Nat.add_0_r in H0, E0.
  rewrite update_camera_feed_outcome, (dense_decodable data Hlen).
  repeat split; try done.
  unfold decode. rewrite pixel_rgbSwapped by done.
  unfold scanLine, QImage_new. cbn [bytesPerLine bits].
  by rewrite E0, E1, E2.
Qed.

Lemma update_camera_feed_reverses_channels_witness :
  ∃ frame,
    current_frame (win (world_of (update_camera_feed sample_image fresh_world)))
    = Some frame ∧
    pixel frame 0 1 = Some {| qRed := x06; qGreen := x05; qBlue := x04 |}.
Proof.
  destruct (update_camera_feed_reverses_channels sample_image fresh_world 0 1
              eq_refl (Nat.lt_0_succ 0) (Nat.lt_succ_diag_r 1))
    as (b0 & b1 & b2 & frame & H0 & H1 & H2 & Hframe & _ & _ & Hpixel).
  exists frame. split; [exact Hframe|].
  injection H0 as <-. injection H1 as <-. injection H2 as <-. exact Hpixel.
Defined.

(** ** The timestamp *)

Lemma is_digit_digit (n : nat) : is_digit (digit n) = true.
Proof.
  unfold digit. pose proof (Nat.mod_upper_bound n 10) as Hlt.
  generalize dependent (n mod 10). intros d Hd.
  do 10 (destruct d as [|d]; [reflexivity|]). lia.
Qed.

Lemma strftime_chars (dt : datetime) :
  strftime dt "%Y-%m-%d_%H:%M:%S"
  = String (digit (year dt / 1000)) (String (digit (year dt / 100))
     (String (digit (year dt / 10)) (String (digit (year dt))
     (String "-" (String (digit (month dt / 10)) (String (digit (month dt))
     (String "-" (String (digit (day dt / 10)) (String (digit (day dt))
     (String "_" (String (digit (hour dt / 10)) (String (digit (hour dt))
     (String ":" (String (digit (minute dt / 10)) (String (digit (minute dt))
     (String ":" (String (digit (second dt / 10)) (String (digit (second dt))
     "")))))))))))))))))).
Proof. reflexivity. Qed.

Lemma strftime_layout (dt : datetime) :
  has_layout "YYYY-MM-DD_HH:MM:SS" (strftime dt "%Y-%m-%d_%H:%M:%S") = true.
Proof.
  rewrite strftime_chars.
  cbn -[digit is_digit]. by rewrite !is_digit_digit.
Qed.

(** The timestamp has second resolution: it is the same for two readings
    of the clock within one second. *)
Lemma strftime_same_second (a b : datetime) :
  same_second a b ->
  strftime a "%Y-%m-%d_%H:%M:%S" = strftime b "%Y-%m-%d_%H:%M:%S".
Proof.
  intros (Hy & Hmo & Hd & Hh & Hmi & Hs).
  rewrite !strftime_chars. by rewrite Hy, Hmo, Hd, Hh, Hmi, Hs.
Qed.

Lemma screenshot_path_join (timestamp : string) :
  os_path_join "screenshots" ("camera_feed_screenshot_" +:+ timestamp +:+ ".png")
  = screenshot_path timestamp.
Proof. reflexivity. Qed.

(** ** The directory of a screenshot *)

Lemma digit_no_slash (n : nat) : bool_decide (digit n = "/"%char) = false.
Proof.
  unfold digit. pose proof (Nat.mod_upper_bound n 10) as Hlt.
  generalize dependent (n mod 10). intros d Hd.
  do 10 (destruct d as [|d]; [reflexivity|]). lia.
Qed.

Lemma no_slash_app (s t : string) :
  no_slash s = true -> no_slash t = true -> no_slash (s +:+ t) = true.
Proof.
  intros Hs Ht. induction s as [|c s IH]; [done|].
  change (String c s +:+ t) with (String c (s +:+ t)).
  cbn [no_slash] in *. apply andb_prop in Hs as [Hc Hs].
  by rewrite Hc, IH.
Qed.

Lemma no_slash_strftime (dt : datetime) :
  no_slash (strftime dt "%Y-%m-%d_%H:%M:%S") = true.
Proof.
  rewrite strftime_chars. cbn [no_slash]. by rewrite !digit_no_slash.
Qed.

Lemma rsplit_slash_no_slash (s : string) : no_slash s = true -> rsplit_slash s = None.
Proof.
  induction s as [|c s IH]; [done|]. cbn [no_slash rsplit_slash].
  intros [Hc Hs]%andb_prop. rewrite (IH Hs).
  by destruct (bool_decide (c = "/"%char)).
Qed.

Lemma rsplit_slash_last (h t : string) :
  no_slash t = true -> rsplit_slash (h +:+ String "/" t) = Some (h, t).
Proof.
  intros Ht. induction h as [|c h IH].
  - change ("" +:+ String "/" t) with (String "/" t).
    cbn [rsplit_slash]. by rewrite (rsplit_slash_no_slash t Ht).
  - change (String c h +:+ String "/" t) with (String c (h +:+ String "/" t)).
    cbn [rsplit_slash]. by rewrite IH.
Qed.

(** The screenshot is to go into the directory [screenshots]. *)
Lemma dirname_screenshot_path (dt : datetime) :
  os_path_dirname (screenshot_path (strftime dt "%Y-%m-%d_%H:%M:%S")) = "screenshots".
Proof.
  unfold os_path_dirname, screenshot_path.
  change ("screenshots/camera_feed_screenshot_" +:+ strftime dt "%Y-%m-%d_%H:%M:%S"
          +:+ ".png")
    with ("screenshots" +:+ String "/" ("camera_feed_screenshot_"
            +:+ strftime dt "%Y-%m-%d_%H:%M:%S" +:+ ".png")).
  rewrite rsplit_slash_last; [reflexivity|].
  apply no_slash_app; [reflexivity|].
  apply no_slash_app; [apply no_slash_strftime | reflexivity].
Qed.

(** ** What [capture_frame] does to the program state *)

Lemma saves_app (l1 l2 : list fs_call) : saves (l1 ++ l2) = saves l1 ++ saves l2.
Proof.
  induction l1 as [|[p|p|p f] l1 IH]; cbn; [done|done|done|].
  by rewrite IH.
Qed.

(** With a frame in the slot, [capture_frame] raises out of [os.makedirs] or
    returns with the world [captured]. *)
Lemma capture_frame_Some (env : Env) (w : World) (img : QImage) :
  current_frame (win w) = Some img ->
  capture_frame env w
  = match makedirs_raises env w with
    | Some e => Raises e (with_fs id (Makedirs "screenshots")
                            (with_fs id (Exists "screenshots") w))
    | None => Returns tt (captured env img w)
    end.
Proof.
  intros Hframe. unfold capture_frame, captured, capture_saves, makedirs_raises,
    fs_before_save, calls_before_save, exists_answer, timestamp_at.
  unfold mbind, M_bind, gets. rewrite Hframe. cbn [truth QImage_truth].
  unfold os_path_exists, os_makedirs, datetime_now, QImage_save, setText,
    modify, mret, M_ret, with_fs, with_win, tick.
  destruct w as [v fsys calls reads r]. cbn in Hframe.
  cbn -[strftime String.append os_path_join save_ok path_exists path_lexists].
  destruct (path_exists fsys "screenshots" && io_ok env (length calls)) eqn:Hthere;
    cbn -[strftime String.append os_path_join save_ok path_exists path_lexists].
  - rewrite screenshot_path_join, Hframe, <- !app_assoc. reflexivity.
  - destruct (path_lexists fsys "screenshots") eqn:Hlex; [reflexivity|].
    rewrite length_app, Nat.add_1_r.
    destruct (io_ok env (S (length calls))); [|reflexivity].
    cbn -[strftime String.append os_path_join save_ok path_exists path_lexists].
    rewrite screenshot_path_join, Hframe, <- !app_assoc. reflexivity.
Qed.

Lemma capture_frame_None (env : Env) (w : World) :
  current_frame (win w) = None ->
  capture_frame env w
  = Returns tt
      {| win := {| inputs := inputs (win w); camera_feed := camera_feed (win w);
                   capture_frame_output :=
                     "No screenshot captured. Camera feed might be empty.";
                   current_frame := current_frame (win w) |};
         fs := fs w; fs_calls := fs_calls w;
         clock_reads := clock_reads w; ros := ros w |}.
Proof.
  intros Hframe. unfold capture_frame, mbind, M_bind, gets.
  rewrite Hframe. unfold setText, modify, with_win. by rewrite Hframe.
Qed.

Lemma saves_captured (env : Env) (img : QImage) (w : World) :
  saves (fs_calls (captured env img w))
  = saves (fs_calls w) ++ [screenshot_path (timestamp_at env w)].
Proof.
  unfold captured, calls_before_save. cbn [fs_calls]. rewrite !saves_app.
  destruct (exists_answer env w); cbn; by rewrite ?app_nil_r.
Qed.

Lemma captured_files (env : Env) (img : QImage) (w : World) :
  files (fs (captured env img w))
  = if capture_saves env img w
    then <[screenshot_path (timestamp_at env w) := PNG img]> (files (fs w))
    else files (fs w).
Proof.
  unfold captured, fs_before_save. cbn [fs].
  by destruct (capture_saves env img w), (exists_answer env w).
Qed.

Lemma captured_files_lookup (env : Env) (img : QImage) (w : World) (p : string) :
  files (fs (captured env img w)) !! p = files (fs w) !! p
  ∨ (p = screenshot_path (timestamp_at env w) ∧
     files (fs (captured env img w)) !! p = Some (PNG img)).
Proof.
  rewrite captured_files. destruct (capture_saves env img w); [|by left].
  destruct (decide (screenshot_path (timestamp_at env w) = p)) as [<- | Hne].
  - right. split; [done|]. apply lookup_insert_eq.
  - left. by apply lookup_insert_ne.
Qed.

Lemma captured_dirs (env : Env) (img : QImage) (w : World) :
  dirs (fs (captured env img w))
  = if exists_answer env w then dirs (fs w) else {["screenshots"]} ∪ dirs (fs w).
Proof.
  unfold captured, fs_before_save, written. cbn [fs].
  by destruct (capture_saves env img w), (exists_answer env w).
Qed.

(** When [os.makedirs] has not raised, [capture_frame] leaves something at
    the path [screenshots]. *)
Lemma path_exists_captured (env : Env) (img : QImage) (w : World) :
  makedirs_raises env w = None ->
  path_exists (fs (captured env img w)) "screenshots" = true.
Proof.
  intros Hraise. unfold path_exists.
  rewrite captured_dirs, captured_files.
  unfold makedirs_raises in Hraise.
  destruct (exists_answer env w) eqn:Hthere.
  - unfold exists_answer in Hthere. apply andb_prop in Hthere as [Hthere _].
    unfold path_exists in Hthere.
    apply orb_true_iff in Hthere as [Hd | Hf]; apply orb_true_iff; [by left|].
    right. apply bool_decide_eq_true. apply bool_decide_eq_true in Hf.
    destruct (capture_saves env img w); [|done].
    rewrite dom_insert_L. set_solver.
  - apply orb_true_iff. left. apply bool_decide_eq_true. set_solver.
Qed.

Lemma screenshot_path_not_folder (timestamp : string) :
  screenshot_path timestamp ≠ "screenshots".
Proof. unfold screenshot_path. intros H. discriminate H. Qed.

(** The [save] call writes, for a frame with pixels, with a directory or
    nothing at [screenshots], no directory at the file's path, and no call
    refused. *)
Lemma capture_saves_true (env : Env) (img : QImage) (w : World) :
  isNull img = false ->
  free_or_directory (fs w) "screenshots" ->
  screenshot_path (timestamp_at env w) ∉ dirs (fs w) ->
  no_fault env w (if path_exists (fs w) "screenshots" then 2 else 3) ->
  makedirs_raises env w = None ∧ capture_saves env img w = true ∧
  exists_answer env w = path_exists (fs w) "screenshots".
Proof.
  intros Hpix Hdir Htarget Hok.
  assert (Hok0 : io_ok env (length (fs_calls w)) = true).
  { rewrite <- (Nat.add_0_r (length _)). apply Hok.
    destruct (path_exists (fs w) "screenshots"); lia. }
  assert (Hok1 : io_ok env (S (length (fs_calls w))) = true).
  { rewrite <- Nat.add_1_r. apply Hok.
    destruct (path_exists (fs w) "screenshots"); lia. }
  assert (Hok2 : path_exists (fs w) "screenshots" = false ->
                 io_ok env (length (fs_calls w) + 2) = true).
  { intros Hex. apply Hok. rewrite Hex. lia. }
  assert (Hthere : exists_answer env w = path_exists (fs w) "screenshots").
  { unfold exists_answer. by rewrite Hok0, andb_true_r. }
  assert (Hparent : "screenshots" ∈ dirs (fs_before_save env w)).
  { unfold fs_before_save. rewrite Hthere.
    destruct (path_exists (fs w) "screenshots") eqn:Hex; cbn [dirs]; [|set_solver].
    destruct Hdir as [Hfree | Hin]; [|done].
    unfold path_lexists in Hfree. rewrite Hex in Hfree. done. }
  assert (Hnodir : screenshot_path (timestamp_at env w) ∉ dirs (fs_before_save env w)).
  { unfold fs_before_save. destruct (exists_answer env w); cbn [dirs]; [done|].
    pose proof (screenshot_path_not_folder (timestamp_at env w)). set_solver. }
  split; [|split; [|done]].
  - unfold makedirs_raises. rewrite Hthere.
    destruct (path_exists (fs w) "screenshots") eqn:Hex; [done|].
    destruct Hdir as [-> | Hin]; [by rewrite Hok1|].
    unfold path_exists in Hex. apply orb_false_iff in Hex as [Hex _].
    apply bool_decide_eq_false in Hex. done.
  - unfold capture_saves, save_ok, parent_is_dir.
    rewrite Hpix. unfold timestamp_at in *. rewrite dirname_screenshot_path.
    rewrite (bool_decide_eq_true_2 _ Hparent), (bool_decide_eq_false_2 _ Hnodir).
    rewrite orb_true_r. cbn [negb andb].
    unfold calls_before_save. rewrite Hthere, length_app.
    destruct (path_exists (fs w) "screenshots"); cbn [length].
    + by rewrite Nat.add_1_r.
    + by rewrite Hok2.
Qed.

Lemma no_fault_le (env : Env) (w : World) (k k' : nat) :
  k' ≤ k -> no_fault env w k -> no_fault env w k'.
Proof. intros Hle Hok i Hi. apply Hok. lia. Qed.

Lemma new_files_captured (env : Env) (img : QImage) (w : World) :
  capture_saves env img w = true ->
  new_files w (captured env img w)
  = if decide (screenshot_path (timestamp_at env w) ∈ dom (files (fs w)))
    then ∅ else {[screenshot_path (timestamp_at env w)]}.
Proof.
  intros Hsave. unfold new_files. rewrite captured_files, Hsave.
  rewrite dom_insert_L. case_decide; set_solver.
Qed.

(** Claim C3, as amended.  Whenever a Current Frame with pixels is present,
    the path [screenshots] is free or holds a directory, no directory sits
    at the output path and the operating system carries out the calls,
    [capture_frame] writes exactly one PNG file under the screenshots
    directory, named camera_feed_screenshot_<timestamp>.png with the
    timestamp in YYYY-MM-DD_HH:MM:SS format taken from one reading of the
    wall clock at second resolution, and sets the status field to a message
    containing that same timestamp.  The file is a new one unless a file of
    that name is already there, in which case it is overwritten. *)
Theorem capture_frame_writes_screenshot (env : Env) (w : World) (img : QImage) :
  current_frame (win w) = Some img ->
  isNull img = false ->
  free_or_directory (fs w) "screenshots" ->
  let timestamp := strftime (clock env (clock_reads w)) "%Y-%m-%d_%H:%M:%S" in
  let path := "screenshots/camera_feed_screenshot_" +:+ timestamp +:+ ".png" in
  path ∉ dirs (fs w) ->
  no_fault env w 3 ->
  ∃ w',
    capture_frame env w = Returns tt w' ∧
    has_layout "YYYY-MM-DD_HH:MM:SS" timestamp = true ∧
    files (fs w') = <[path := PNG img]> (files (fs w)) ∧
    saves (fs_calls w') = saves (fs_calls w) ++ [path] ∧
    new_files w w' = (if decide (path ∈ dom (files (fs w))) then ∅ else {[path]}) ∧
    clock_reads w' = S (clock_reads w) ∧
    capture_frame_output (win w')
    = "Screenshot saved at " +:+ timestamp +:+ " in 'pwd/screenshots'".
Proof.
  intros Hframe Hpix Hdir timestamp path Htarget Hok.
  destruct (capture_saves_true env img w Hpix Hdir Htarget) as (Hraise & Hsave & _).
  { apply (no_fault_le env w 3); [|done].
    destruct (path_exists (fs w) "screenshots"); lia. }
  exists (captured env img w).
  split; [by rewrite (capture_frame_Some env w img Hframe), Hraise|].
  split; [apply strftime_layout|].
  split; [by rewrite captured_files, Hsave|].
  split; [apply saves_captured|].
  split; [by apply new_files_captured|].
  done.
Qed.

Lemma capture_frame_writes_screenshot_witness :
  ∃ w', capture_frame sample_env world_with_frame = Returns tt w' ∧
        files (fs w') !! "screenshots/camera_feed_screenshot_2024-03-09_14:05:07.png"
        = Some (PNG sample_frame) ∧
        capture_frame_output (win w')
        = "Screenshot saved at 2024-03-09_14:05:07 in 'pwd/screenshots'".
Proof.
  destruct (capture_frame_writes_screenshot sample_env world_with_frame
              sample_frame eq_refl eq_refl)
    as (w' & Hrun & _ & Hfiles & _ & _ & _ & Hstatus).
  - left. reflexivity.
  - cbn. apply not_elem_of_empty.
  - intros i _. reflexivity.
  - exists w'. split; [exact Hrun|]. split; [|exact Hstatus].
    rewrite Hfiles. apply lookup_insert_eq.
Defined.

(** Claim C3, as stated, fails: a capture in a second in which a screenshot
    was already taken leaves the set of files as it was, so it produces no
    new file. *)
Lemma capture_frame_same_second_no_new_file :
  current_frame (win world_with_screenshot) = Some sample_frame ∧
  ∃ w', capture_frame sample_env world_with_screenshot = Returns tt w' ∧
        new_files world_with_screenshot w' = ∅ ∧
        dom (files (fs w')) = dom (files (fs world_with_screenshot)).
Proof.
  split; [reflexivity|].
  exists (captured sample_env sample_frame world_with_screenshot).
  split; [by rewrite (capture_frame_Some _ _ sample_frame)|].
  assert (Hpath : screenshot_path (timestamp_at sample_env world_with_screenshot)
                  = "screenshots/camera_feed_screenshot_2024-03-09_14:05:07.png")
    by reflexivity.
  assert (Hdom : dom (files (fs (captured sample_env sample_frame world_with_screenshot)))
                 = dom (files (fs world_with_screenshot))).
  { rewrite captured_files, Hpath.
    destruct (capture_saves sample_env sample_frame world_with_screenshot); [|done].
    rewrite dom_insert_L.
    unfold world_with_screenshot. cbn [fs files]. rewrite dom_singleton_L.
    set_solver. }
  split; [|exact Hdom].
  unfold new_files. rewrite Hdom. set_solver.
Qed.
(** Claim C4.  Whenever the Current Frame is empty, [capture_frame] performs
    no file I/O (no call on the file system is made, no file and no
    directory is created) and sets the status field to the fixed
    "no screenshot captured" message. *)
Theorem capture_frame_without_frame (env : Env) (w : World) :
  current_frame (win w) = None ->
  ∃ w',
    capture_frame env w = Returns tt w' ∧
    fs_calls w' = fs_calls w ∧
    fs w' = fs w ∧
    new_files w w' = ∅ ∧
    clock_reads w' = clock_reads w ∧
    capture_frame_output (win w')
    = "No screenshot captured. Camera feed might be empty." ∧
    current_frame (win w') = None.
Proof.
  intros Hframe. eexists. split; [by apply capture_frame_None|].
  cbn. repeat split; try done.
  unfold new_files. cbn. set_solver.
Qed.

Lemma capture_frame_without_frame_witness :
  ∃ w', capture_frame sample_env fresh_world = Returns tt w' ∧
        fs w' = fs fresh_world ∧
        capture_frame_output (win w')
        = "No screenshot captured. Camera feed might be empty.".
Proof.
  destruct (capture_frame_without_frame sample_env fresh_world eq_refl)
    as (w' & Hrun & _ & Hfs & _ & _ & Hstatus & _).
  exists w'. repeat split; assumption.
Defined.

Lemma written_twice (fsys : FileSystem) (path : string) (file : File) :
  written (written fsys path file) path file = written fsys path file.
Proof.
  unfold written. cbn [dirs files dangling]. f_equal.
  - apply insert_insert_eq.
  - set_solver.
Qed.

Lemma length_calls_captured (env : Env) (img : QImage) (w : World) :
  length (fs_calls (captured env img w))
  = length (fs_calls w) + (if exists_answer env w then 2 else 3).
Proof.
  unfold captured, calls_before_save. cbn [fs_calls]. rewrite !length_app.
  destruct (exists_answer env w); cbn; lia.
Qed.

(** A second capture in the same second, after one that wrote its file,
    writes the same file again. *)
Lemma captured_twice (env : Env) (img : QImage) (w : World) :
  same_second (clock env (clock_reads w)) (clock env (S (clock_reads w))) ->
  isNull img = false ->
  free_or_directory (fs w) "screenshots" ->
  screenshot_path (timestamp_at env w) ∉ dirs (fs w) ->
  no_fault env w 5 ->
  makedirs_raises env w = None ∧
  makedirs_raises env (captured env img w) = None ∧
  files (fs (captured env img w)) !! screenshot_path (timestamp_at env w)
  = Some (PNG img) ∧
  fs (captured env img (captured env img w)) = fs (captured env img w).
Proof.
  intros Hsame Hpix Hdir Htarget Hok.
  destruct (capture_saves_true env img w Hpix Hdir Htarget)
    as (Hraise & Hsave & Hthere).
  { apply (no_fault_le env w 5); [|done].
    destruct (path_exists (fs w) "screenshots"); lia. }
  set (w1 := captured env img w).
  assert (Hts : timestamp_at env w1 = timestamp_at env w).
  { unfold timestamp_at. cbn [w1 captured clock_reads].
    symmetry. by apply strftime_same_second. }
  assert (Hex1 : path_exists (fs w1) "screenshots" = true)
    by by apply path_exists_captured.
  assert (Hdirs1 : "screenshots" ∈ dirs (fs w1)).
  { unfold w1. rewrite captured_dirs, Hthere.
    destruct (path_exists (fs w) "screenshots") eqn:Hex; [|set_solver].
    destruct Hdir as [Hfree | Hin]; [|done].
    unfold path_lexists in Hfree. by rewrite Hex in Hfree. }
  assert (Htarget1 : screenshot_path (timestamp_at env w1) ∉ dirs (fs w1)).
  { rewrite Hts. unfold w1. rewrite captured_dirs.
    pose proof (screenshot_path_not_folder (timestamp_at env w)).
    destruct (exists_answer env w); set_solver. }
  destruct (capture_saves_true env img w1 Hpix (or_intror Hdirs1) Htarget1)
    as (Hraise1 & Hsave1 & Hthere1).
  { rewrite Hex1. intros i Hi. unfold w1. rewrite length_calls_captured.
    rewrite <- Nat.add_assoc. apply Hok. destruct (exists_answer env w); lia. }
  split; [done|]. split; [done|]. split.
  { unfold w1. rewrite captured_files, Hsave. apply lookup_insert_eq. }
  unfold captured at 1. cbn [fs]. fold w1. rewrite Hsave1, Hts.
  unfold fs_before_save. rewrite Hthere1, Hex1.
  unfold w1 at 1 2. unfold captured. cbn [fs]. rewrite Hsave.
  apply written_twice.
Qed.

(** Claim C5, as amended.  Two captures within the same wall-clock second
    with an unchanged Current Frame compute the identical output path, so no
    second distinct file is produced: whatever the two calls change is at
    that one path.  When the saves succeed (a frame with pixels, the path
    [screenshots] free or a directory, no directory at the output path, no
    call refused) the second capture overwrites the file of the first and
    leaves the file system exactly as the first left it. *)
Theorem capture_frame_twice_same_second (env : Env) (w : World) (img : QImage) :
  current_frame (win w) = Some img ->
  same_second (clock env (clock_reads w)) (clock env (S (clock_reads w))) ->
  let path := screenshot_path (timestamp_at env w) in
  (∀ w1 w2,
     capture_frame env w = Returns tt w1 ->
     capture_frame env w1 = Returns tt w2 ->
     saves (fs_calls w2) = saves (fs_calls w) ++ [path; path] ∧
     ∀ q, q ≠ path -> files (fs w2) !! q = files (fs w) !! q) ∧
  (isNull img = false ->
   free_or_directory (fs w) "screenshots" ->
   path ∉ dirs (fs w) ->
   no_fault env w 5 ->
   ∃ w1 w2,
     capture_frame env w = Returns tt w1 ∧
     capture_frame env w1 = Returns tt w2 ∧
     files (fs w1) !! path = Some (PNG img) ∧
     fs w2 = fs w1 ∧
     new_files w1 w2 = ∅ ∧
     capture_frame_output (win w2) = capture_frame_output (win w1)).
Proof.
  intros Hframe Hsame path.
  set (w1 := captured env img w).
  assert (Hframe1 : current_frame (win w1) = Some img) by exact Hframe.
  assert (Hts : timestamp_at env w1 = timestamp_at env w).
  { unfold timestamp_at. cbn [w1 captured clock_reads].
    symmetry. by apply strftime_same_second. }
  split.
  - intros v1 v2 Hrun1 Hrun2. subst w1.
    rewrite (capture_frame_Some env w img Hframe) in Hrun1.
    destruct (makedirs_raises env w); [done|]. injection Hrun1 as <-.
    rewrite (capture_frame_Some env _ img Hframe1) in Hrun2.
    destruct (makedirs_raises env (captured env img w)); [done|].
    injection Hrun2 as <-. split.
    + by rewrite saves_captured, Hts, saves_captured, <- app_assoc.
    + intros q Hq.
      destruct (captured_files_lookup env img (captured env img w) q)
        as [-> | [Heq _]]; [|by rewrite Heq, Hts in Hq].
      by destruct (captured_files_lookup env img w q) as [-> | [Heq _]].
  - intros Hpix Hdir Htarget Hok. subst w1.
    destruct (captured_twice env img w Hsame Hpix Hdir Htarget Hok)
      as (Hraise & Hraise1 & Hfile & Hfs).
    exists (captured env img w), (captured env img (captured env img w)).
    split; [by rewrite (capture_frame_Some env w img Hframe), Hraise|].
    split; [by rewrite (capture_frame_Some env _ img Hframe1), Hraise1|].
    split; [exact Hfile|]. split; [exact Hfs|]. split.
    + unfold new_files. rewrite Hfs. set_solver.
    + unfold captured at 1. cbn [win capture_frame_output]. by rewrite Hts.
Qed.

Lemma capture_frame_twice_same_second_witness :
  ∃ w1 w2,
    capture_frame sample_env world_with_frame = Returns tt w1 ∧
    capture_frame sample_env w1 = Returns tt w2 ∧
    files (fs w1) !! "screenshots/camera_feed_screenshot_2024-03-09_14:05:07.png"
    = Some (PNG sample_frame) ∧
    fs w2 = fs w1.
Proof.
  assert (Hsame : same_second (clock sample_env 0) (clock sample_env 1))
    by repeat split.
  destruct (proj2 (capture_frame_twice_same_second sample_env world_with_frame
                     sample_frame eq_refl Hsame) eq_refl)
    as (w1 & w2 & Hrun1 & Hrun2 & Hfile & Hfs & _).
  - left. reflexivity.
  - cbn. apply not_elem_of_empty.
  - intros i _. reflexivity.
  - exists w1, w2. repeat split; assumption.
Defined.

(** Claim C5, as stated, fails when the saves do not succeed: with a regular
    file where the directory should be, two captures in the same second
    compute the same path but write nothing, so the second overwrites no
    file. *)
Lemma capture_frame_twice_nothing_to_overwrite :
  same_second (clock sample_env 0) (clock sample_env 1) ∧
  ∃ w1 w2,
    capture_frame sample_env world_with_blocker = Returns tt w1 ∧
    capture_frame sample_env w1 = Returns tt w2 ∧
    saves (fs_calls w2)
    = ["screenshots/camera_feed_screenshot_2024-03-09_14:05:07.png";
       "screenshots/camera_feed_screenshot_2024-03-09_14:05:07.png"] ∧
    files (fs w1) !! "screenshots/camera_feed_screenshot_2024-03-09_14:05:07.png"
    = None ∧
    files (fs w2) = files (fs world_with_blocker).
Proof.
  split; [repeat split|].
  eexists _, _. split; [vm_compute; reflexivity|].
  split; [vm_compute; reflexivity|].
  split; [vm_compute; reflexivity|].
  split; vm_compute; reflexivity.
Qed.

(** Claim C8, as amended.  When a Current Frame is present: if nothing is at
    the path [screenshots], [capture_frame] creates the directory before it
    makes the save call; if the directory is already there, the call does
    not fail, creates nothing and goes on to the save call; and in either
    case the save writes the PNG into the directory when the frame has
    pixels and no directory sits at the output path.  (Provided the operating
    system carries out the calls.) *)
Theorem capture_frame_ensures_directory (env : Env) (w : World) (img : QImage) :
  current_frame (win w) = Some img ->
  let path := screenshot_path (timestamp_at env w) in
  (path_lexists (fs w) "screenshots" = false ->
   no_fault env w 2 ->
   ∃ w', capture_frame env w = Returns tt w' ∧
         dirs (fs w') = {["screenshots"]} ∪ dirs (fs w) ∧
         fs_calls w' = fs_calls w ++ [Exists "screenshots"; Makedirs "screenshots";
                                      Save path "PNG"]) ∧
  ("screenshots" ∈ dirs (fs w) ->
   no_fault env w 1 ->
   ∃ w', capture_frame env w = Returns tt w' ∧
         dirs (fs w') = dirs (fs w) ∧
         fs_calls w' = fs_calls w ++ [Exists "screenshots"; Save path "PNG"]) ∧
  (isNull img = false ->
   free_or_directory (fs w) "screenshots" ->
   path ∉ dirs (fs w) ->
   no_fault env w 3 ->
   ∃ w', capture_frame env w = Returns tt w' ∧
         "screenshots" ∈ dirs (fs w') ∧
         files (fs w') !! path = Some (PNG img)).
Proof.
  intros Hframe path. rewrite (capture_frame_Some env w img Hframe).
  split; [|split].
  - intros Hfree Hok.
    pose proof (Hok 1 ltac:(lia)) as Hok1. rewrite Nat.add_1_r in Hok1.
    assert (Hex : path_exists (fs w) "screenshots" = false).
    { unfold path_lexists in Hfree. by apply orb_false_iff in Hfree as [? _]. }
    assert (Hthere : exists_answer env w = false)
      by (unfold exists_answer; by rewrite Hex).
    unfold makedirs_raises. rewrite Hthere, Hfree, Hok1.
    exists (captured env img w). split; [done|].
    rewrite captured_dirs, Hthere. split; [done|].
    unfold captured, calls_before_save. cbn [fs_calls].
    by rewrite Hthere, <- app_assoc.
  - intros Hin Hok.
    pose proof (Hok 0 ltac:(lia)) as Hok0. rewrite Nat.add_0_r in Hok0.
    assert (Hthere : exists_answer env w = true).
    { unfold exists_answer, path_exists. rewrite Hok0, andb_true_r.
      apply orb_true_iff. left. by apply bool_decide_eq_true. }
    unfold makedirs_raises. rewrite Hthere.
    exists (captured env img w). split; [done|].
    rewrite captured_dirs, Hthere. split; [done|].
    unfold captured, calls_before_save. cbn [fs_calls].
    by rewrite Hthere, <- app_assoc.
  - intros Hpix Hdir Htarget Hok.
    destruct (capture_saves_true env img w Hpix Hdir Htarget) as (Hraise & Hsave & Hthere).
    { apply (no_fault_le env w 3); [|done].
      destruct (path_exists (fs w) "screenshots"); lia. }
    rewrite Hraise. exists (captured env img w). split; [done|]. split.
    + rewrite captured_dirs, Hthere.
      destruct (path_exists (fs w) "screenshots") eqn:Hex; [|set_solver].
      destruct Hdir as [Hfree | Hin]; [|done].
      unfold path_lexists in Hfree. by rewrite Hex in Hfree.
    + rewrite captured_files, Hsave. apply lookup_insert_eq.
Qed.

Lemma capture_frame_ensures_directory_witness :
  (∃ w', capture_frame sample_env world_with_frame = Returns tt w' ∧
         dirs (fs w') = {["screenshots"]} ∪ ∅) ∧
  (∃ w', capture_frame sample_env world_with_screenshot = Returns tt w' ∧
         dirs (fs w') = {["screenshots"]}).
Proof.
  split.
  - destruct (proj1 (capture_frame_ensures_directory sample_env world_with_frame
                       sample_frame eq_refl) eq_refl)
      as (w' & Hrun & Hdirs & _).
    { intros i _. reflexivity. }
    exists w'. split; [exact Hrun | exact Hdirs].
  - destruct (proj1 (proj2 (capture_frame_ensures_directory sample_env
                              world_with_screenshot sample_frame eq_refl)))
      as (w' & Hrun & Hdirs & _).
    { cbn. apply elem_of_singleton. reflexivity. }
    { intros i _. reflexivity. }
    exists w'. split; [exact Hrun | exact Hdirs].
Defined.

(** Claim C8, as stated, fails when something other than a directory is at
    the path.  With a regular file named [screenshots], the existence test
    passes, no directory is created, and the save writes nothing.  With a
    symbolic link named [screenshots] that leads nowhere, the existence test
    fails, [os.makedirs] raises, and no directory is created either. *)
Lemma capture_frame_directory_not_ensured :
  ("screenshots" ∉ dirs (fs world_with_blocker)) ∧
  (∃ w', capture_frame sample_env world_with_blocker = Returns tt w' ∧
         dirs (fs w') = ∅ ∧
         makedirs_calls (fs_calls w') = 0 ∧
         files (fs w') !! "screenshots/camera_feed_screenshot_2024-03-09_14:05:07.png"
         = None ∧
         capture_frame_output (win w')
         = "Screenshot saved at 2024-03-09_14:05:07 in 'pwd/screenshots'") ∧
  ("screenshots" ∉ dirs (fs world_with_link)) ∧
  (∃ w', capture_frame sample_env world_with_link
         = Raises (FileExistsError "screenshots") w' ∧
         fs w' = fs world_with_link ∧
         saves (fs_calls w') = []).
Proof.
  split; [cbn; apply not_elem_of_empty|]. split.
  { eexists. split; [vm_compute; reflexivity|].
    split; [vm_compute; reflexivity|].
    split; [vm_compute; reflexivity|].
    split; vm_compute; reflexivity. }
  split; [cbn; apply not_elem_of_empty|].
  eexists. split; [vm_compute; reflexivity|].
  split; vm_compute; reflexivity.
Qed.
(** ** What [spawn_robot] does to the program state *)

Lemma only_polled_refl (w : World) : only_polled w w.
Proof. by repeat split. Qed.

Lemma only_polled_poll (w w' : World) :
  only_polled (poll w) w' -> only_polled w w'.
Proof. intros (? & ? & ? & ? & ? & ?). by repeat split. Qed.

Lemma wait_for_service_only_polls (env : Env) (fuel : nat) (name : string) (w : World) :
  match wait_for_service env fuel name w with
  | Returns _ w' | Blocked w' => only_polled w w'
  | Raises _ _ => False
  end.
Proof.
  revert w. induction fuel as [|fuel IH]; intros w; cbn.
  - apply only_polled_refl.
  - destruct (registered env (master_polls (ros w))).
    + apply only_polled_poll, only_polled_refl.
    + specialize (IH (poll w)).
      destruct (wait_for_service env fuel name (poll w)); [|done|];
        by apply only_polled_poll.
Qed.

(** Once the service is registered, enough polls make the wait return. *)
Lemma wait_for_service_returns (env : Env) (t : nat) (name : string) (w : World) :
  registered env (master_polls (ros w) + t) = true ->
  ∃ w', wait_for_service env (S t) name w = Returns tt w'.
Proof.
  revert w. induction t as [|t IH]; intros w Hreg; cbn [wait_for_service].
  - rewrite Nat.add_0_r in Hreg. rewrite Hreg. eauto.
  - destruct (registered env (master_polls (ros w))); [eauto|].
    apply IH. rewrite <- Hreg. f_equal. cbn. lia.
Qed.

(** While the service is not registered, the wait does not return. *)
Lemma wait_for_service_blocked (env : Env) (fuel : nat) (name : string) (w : World) :
  (∀ n, registered env (master_polls (ros w) + n) = false) ->
  ∃ w', wait_for_service env fuel name w = Blocked w'.
Proof.
  revert w. induction fuel as [|fuel IH]; intros w Hreg; cbn [wait_for_service].
  - eauto.
  - pose proof (Hreg 0) as H0. rewrite Nat.add_0_r in H0. rewrite H0.
    apply IH. intros n. rewrite <- (Hreg (S n)). f_equal. cbn. lia.
Qed.

(** [spawn_robot], path by path. *)
Lemma spawn_robot_paths (env : Env) (fuel : nat) (w : World) :
  match wait_for_service env fuel "/gazebo/set_model_state" w with
  | Blocked w1 => spawn_robot env fuel w = Blocked w1
  | Returns _ w1 =>
      match next_reply env w with
      | Failure reason =>
          spawn_robot env fuel w = Returns tt (logged (sent w1 (request_of w)) reason)
      | Response _ _ =>
          spawn_robot env fuel w = Returns tt (sent w1 (request_of w))
      end
  | Raises _ _ => False
  end.
Proof.
  pose proof (wait_for_service_only_polls env fuel "/gazebo/set_model_state" w) as Hw.
  unfold spawn_robot, try_except, mbind, M_bind, gets, next_reply, request_of.
  destruct (wait_for_service env fuel "/gazebo/set_model_state" w)
    as [[] w1 | e w1 | w1]; [|done|done].
  destruct Hw as (Hwin & _ & _ & _ & Hcalls & _).
  unfold ServiceProxy_call. rewrite Hcalls.
  destruct (respond env _ _); reflexivity.
Qed.

Lemma mul_minus_one_neg (v : Py.num) :
  Py.wf v = true -> Py.mul_minus_one v = Py.neg v.
Proof.
  destruct v as [n | f]; simpl; intros Hv.
  - f_equal. lia.
  - f_equal. by apply SFmul_minus_one.
Qed.

(** When [spawn_robot] returns, the request it built has gone out. *)
Lemma spawn_robot_sends (env : Env) (fuel : nat) (w w' : World) :
  spawn_robot env fuel w = Returns tt w' ->
  service_calls (ros w') = service_calls (ros w) ++ [request_of w].
Proof.
  intros Hrun.
  pose proof (wait_for_service_only_polls env fuel "/gazebo/set_model_state" w) as Hw.
  pose proof (spawn_robot_paths env fuel w) as Hpaths.
  destruct (wait_for_service env fuel "/gazebo/set_model_state" w)
    as [[] w1 | e w1 | w1]; [|done|congruence].
  destruct Hw as (_ & _ & _ & _ & Hsent & _).
  destruct (next_reply env w); rewrite Hpaths in Hrun;
    injection Hrun as <-; cbn; by rewrite Hsent.
Qed.

(** Claim C1.  For all GUI inputs (x, y, z, orientation-z, orientation-w),
    the request built by [spawn_robot] (the one it sends to the relocation
    service) names the model ['R1'] and carries position.x = -x,
    position.y = -y, position.z = z, orientation.x = 0, orientation.y = 0,
    orientation.z = orientation-z and orientation.w = orientation-w.  The
    inputs are Python numbers; a float input is a well-formed binary64, for
    which [x * -1] is exactly [-x]. *)
Theorem spawn_robot_request_pose (i : Inputs) :
  Py.wf (coordinate_x i) = true ->
  Py.wf (coordinate_y i) = true ->
  (∀ env fuel w w',
     inputs (win w) = i ->
     spawn_robot env fuel w = Returns tt w' ->
     service_calls (ros w')
     = service_calls (ros w) ++ [("/gazebo/set_model_state", build_request i)]) ∧
  let state := model_state (build_request i) in
  let position := Pose.position (ModelState.pose state) in
  let orientation := Pose.orientation (ModelState.pose state) in
  ModelState.model_name state = "R1" ∧
  Point.x position = Py.neg (coordinate_x i) ∧
  Point.y position = Py.neg (coordinate_y i) ∧
  Point.z position = coordinate_z i ∧
  Quaternion.x orientation = Py.Int 0 ∧
  Quaternion.y orientation = Py.Int 0 ∧
  Quaternion.z orientation = orientation_z i ∧
  Quaternion.w orientation = orientation_w i.
Proof.
  intros Hx Hy. split.
  { intros env fuel w w' <- Hrun. exact (spawn_robot_sends _ _ _ _ Hrun). }
  cbn.
  rewrite (mul_minus_one_neg _ Hx), (mul_minus_one_neg _ Hy).
  repeat split.
Qed.

Lemma spawn_robot_request_pose_witness :
  let state := model_state (build_request sample_inputs) in
  ModelState.model_name state = "R1" ∧
  Point.x (Pose.position (ModelState.pose state))
    = Py.Float (S754_finite true 6755399441055744 (-51)) ∧
  Point.y (Pose.position (ModelState.pose state)) = Py.Int 2.
Proof.
  destruct (spawn_robot_request_pose sample_inputs eq_refl eq_refl)
    as (_ & Hn & Hx & Hy & _).
  repeat split; assumption.
Defined.

(** While the service is not registered, [spawn_robot] stays blocked. *)
Lemma spawn_robot_blocked (env : Env) (fuel : nat) (w : World) :
  (∀ n, registered env (master_polls (ros w) + n) = false) ->
  ∃ w', spawn_robot env fuel w = Blocked w' ∧ only_polled w w'.
Proof.
  intros Hreg.
  destruct (wait_for_service_blocked env fuel "/gazebo/set_model_state" w Hreg)
    as [w1 Hwait].
  pose proof (wait_for_service_only_polls env fuel "/gazebo/set_model_state" w) as Hw.
  pose proof (spawn_robot_paths env fuel w) as Hpaths.
  rewrite Hwait in Hw, Hpaths. eauto.
Qed.

(** Claim C7, as amended.  When the call to the relocation service raises a
    service exception (the service, once registered, is gone again or rejects
    the request), [spawn_robot] logs the error and returns, leaving the
    Current Frame slot, the status field, the preview widget and the file
    system exactly as before.  While the service is not registered,
    [spawn_robot] neither logs nor returns: it stays blocked in
    [wait_for_service], with the same state left untouched. *)
Theorem spawn_robot_service_failure (env : Env) (w : World) :
  (∀ t reason,
     registered env (master_polls (ros w) + t) = true ->
     next_reply env w = Failure reason ->
     ∃ fuel w',
       spawn_robot env fuel w = Returns tt w' ∧
       rosout (ros w') = rosout (ros w) ++ [reason] ∧
       service_calls (ros w') = service_calls (ros w) ++ [request_of w] ∧
       win w' = win w ∧ fs w' = fs w ∧ fs_calls w' = fs_calls w ∧
       clock_reads w' = clock_reads w) ∧
  ((∀ n, registered env (master_polls (ros w) + n) = false) ->
   ∀ fuel, ∃ w', spawn_robot env fuel w = Blocked w' ∧ only_polled w w').
Proof.
  split.
  - intros t reason Hreg Hreply. exists (S t).
    destruct (wait_for_service_returns env t "/gazebo/set_model_state" w Hreg)
      as [w1 Hwait].
    pose proof (wait_for_service_only_polls env (S t) "/gazebo/set_model_state" w) as Hw.
    pose proof (spawn_robot_paths env (S t) w) as Hpaths.
    rewrite Hwait in Hw, Hpaths. rewrite Hreply in Hpaths.
    destruct Hw as (Hwin & Hfs & Hcalls & Hclock & Hsent & Hlog).
    eexists. split; [exact Hpaths|]. cbn.
    by rewrite Hlog, Hsent.
  - intros Hreg fuel. by apply spawn_robot_blocked.
Qed.

Lemma spawn_robot_service_failure_witness :
  ∃ fuel w',
    spawn_robot sample_env fuel fresh_world = Returns tt w' ∧
    rosout (ros w') = ["model R1 does not exist"] ∧
    win w' = win fresh_world ∧ fs w' = fs fresh_world.
Proof.
  destruct (proj1 (spawn_robot_service_failure sample_env fresh_world)
              2 "model R1 does not exist" eq_refl eq_refl)
    as (fuel & w' & Hrun & Hlog & _ & Hwin & Hfs & _).
  exists fuel, w'. repeat split; assumption.
Defined.

(** Claim C7, as stated, fails for an unavailable service: when the
    relocation service is never registered, [spawn_robot] does not return
    however long one waits, and it writes no log entry. *)
Lemma spawn_robot_absent_service_never_returns :
  (∀ n, registered absent_service_env n = false) ∧
  (¬ ∃ fuel w', spawn_robot absent_service_env fuel fresh_world = Returns tt w') ∧
  (∀ fuel, rosout (ros (world_of (spawn_robot absent_service_env fuel fresh_world))) = []).
Proof.
  assert (Hblocked : ∀ fuel, ∃ w',
            spawn_robot absent_service_env fuel fresh_world = Blocked w' ∧
            only_polled fresh_world w').
  { intros fuel. by apply spawn_robot_blocked. }
  split; [done|]. split.
  - intros (fuel & w' & Hrun).
    destruct (Hblocked fuel) as (w1 & Hrun1 & _). congruence.
  - intros fuel. destruct (Hblocked fuel) as (w1 & -> & Hsame).
    cbn. by destruct Hsame as (_ & _ & _ & _ & _ & ->).
Qed.

(** Claim C10.  On every path of [spawn_robot] (it returns after a successful
    call, it returns after logging a failed call, or it is still waiting for
    the service) the window is untouched: the Current Frame slot, the status
    field, the preview widget and the five input fields are as before, and
    so are the file system and the clock.  Its only effects are the
    outbound service call and, when that call fails, one log entry; it never
    raises. *)
Theorem spawn_robot_leaves_window (env : Env) (fuel : nat) (w : World) :
  let r := spawn_robot env fuel w in
  let w' := world_of r in
  win w' = win w ∧ fs w' = fs w ∧ fs_calls w' = fs_calls w ∧
  clock_reads w' = clock_reads w ∧
  (∀ e w'', r ≠ Raises e w'') ∧
  ((r = Blocked w' ∧
    service_calls (ros w') = service_calls (ros w) ∧
    rosout (ros w') = rosout (ros w))
   ∨ (r = Returns tt w' ∧
      service_calls (ros w') = service_calls (ros w) ++ [request_of w] ∧
      ((∃ ok text, next_reply env w = Response ok text ∧
                   rosout (ros w') = rosout (ros w))
       ∨ (∃ reason, next_reply env w = Failure reason ∧
                    rosout (ros w') = rosout (ros w) ++ [reason])))).
Proof.
  intros r w'. subst w' r.
  pose proof (wait_for_service_only_polls env fuel "/gazebo/set_model_state" w) as Hw.
  pose proof (spawn_robot_paths env fuel w) as Hpaths.
  destruct (wait_for_service env fuel "/gazebo/set_model_state" w)
    as [[] w1 | e w1 | w1]; [|done|].
  - destruct Hw as (Hwin & Hfs & Hcalls & Hclock & Hsent & Hlog).
    destruct (next_reply env w) as [ok text | reason] eqn:Hreply;
      rewrite Hpaths; cbn; rewrite ?Hsent, ?Hlog;
      (repeat split; try done); right; (split; [done|]); (split; [done|]).
    + left. eauto.
    + right. eauto.
  - destruct Hw as (Hwin & Hfs & Hcalls & Hclock & Hsent & Hlog).
    rewrite Hpaths. cbn. repeat split; try done. by left.
Qed.

(** ** The Current Frame along a sequence of events *)

Lemma spawn_robot_window (env : Env) (fuel : nat) (w : World) :
  win (world_of (spawn_robot env fuel w)) = win w.
Proof.
  pose proof (wait_for_service_only_polls env fuel "/gazebo/set_model_state" w) as Hw.
  pose proof (spawn_robot_paths env fuel w) as Hpaths.
  destruct (wait_for_service env fuel "/gazebo/set_model_state" w)
    as [[] w1 | e w1 | w1]; [|done|].
  - destruct Hw as (Hwin & _).
    by destruct (next_reply env w); rewrite Hpaths.
  - destruct Hw as (Hwin & _). by rewrite Hpaths.
Qed.

(** However it ends, [capture_frame] leaves the input fields, the preview,
    the Current Frame and the ROS side alone. *)
Lemma capture_frame_keeps (env : Env) (w : World) :
  let w' := world_of (capture_frame env w) in
  inputs (win w') = inputs (win w) ∧
  camera_feed (win w') = camera_feed (win w) ∧
  current_frame (win w') = current_frame (win w) ∧
  ros w' = ros w.
Proof.
  destruct (current_frame (win w)) as [img|] eqn:Hframe.
  - rewrite (capture_frame_Some env w img Hframe).
    by destruct (makedirs_raises env w).
  - by rewrite (capture_frame_None env w Hframe).
Qed.

Lemma update_camera_feed_slot (data : Image) (w : World) :
  current_frame (win (world_of (update_camera_feed data w)))
  = if decodable data then Some (decode data) else current_frame (win w).
Proof.
  rewrite update_camera_feed_outcome. by destruct (decodable data).
Qed.

Lemma dispatch_current_frame (env : Env) (fuel : nat) (ev : event) (w : World) :
  current_frame (win (world_of (dispatch env fuel ev w)))
  = latest_decoded [ev] (current_frame (win w)).
Proof.
  destruct ev as [| |data]; cbn [dispatch latest_decoded].
  - by rewrite spawn_robot_window.
  - by destruct (capture_frame_keeps env w) as (_ & _ & -> & _).
  - apply update_camera_feed_slot.
Qed.

Lemma latest_decoded_cons (ev : event) (evs : list event) (before : option QImage) :
  latest_decoded (ev :: evs) before = latest_decoded evs (latest_decoded [ev] before).
Proof. by destruct ev. Qed.

Lemma handled_current_frame (env : Env) (fuel : nat) (evs : list event) (w w' : World) :
  handled env fuel evs w = Some w' ->
  current_frame (win w') = latest_decoded evs (current_frame (win w)).
Proof.
  revert w. induction evs as [|ev evs IH]; intros w; cbn [handled].
  - by intros [= <-].
  - intros Hrest. rewrite latest_decoded_cons, <- (dispatch_current_frame env fuel).
    destruct (dispatch env fuel ev w) as [[] w1 | e w1 | w1]; [| |done];
      by apply IH.
Qed.

(** The latest bitmap comes from the last image message that could be
    decoded, if there is one. *)
Lemma latest_decoded_split (evs : list event) (before : option QImage) :
  (¬ decoded evs ∧ latest_decoded evs before = before)
  ∨ ∃ data earlier later,
      evs = earlier ++ image_received data :: later ∧
      decodable data = true ∧
      ¬ decoded later ∧
      latest_decoded evs before = Some (decode data).
Proof.
  revert before. induction evs as [|ev evs IH]; intros before.
  - left. split; [|done]. intros (d & Hd & _). by apply elem_of_nil in Hd.
  - rewrite latest_decoded_cons.
    destruct (IH (latest_decoded [ev] before))
      as [[Hnone Hsame] | (data & earlier & later & -> & Hdec & Hlater & Hlast)].
    + rewrite Hsame. destruct ev as [| |data]; cbn [latest_decoded].
      * left. split; [|done]. intros (d & Hd & Hdec). apply Hnone. exists d.
        apply elem_of_cons in Hd as [? | Hd]; done.
      * left. split; [|done]. intros (d & Hd & Hdec). apply Hnone. exists d.
        apply elem_of_cons in Hd as [? | Hd]; done.
      * destruct (decodable data) eqn:Hdec.
        -- right. exists data, [], evs. by repeat split.
        -- left. split; [|done]. intros (d & Hd & Hd'). 
           apply elem_of_cons in Hd as [[= ->] | Hd]; [congruence|].
           apply Hnone. by exists d.
    + right. exists data, (ev :: earlier), later. by repeat split.
Qed.

Lemma latest_decoded_None (evs : list event) :
  latest_decoded evs None = None ↔ ¬ decoded evs.
Proof.
  destruct (latest_decoded_split evs None)
    as [[Hnone Hsame] | (data & earlier & later & -> & Hdec & _ & Hlast)].
  - by split.
  - rewrite Hlast. split; [done|]. intros Hnot. exfalso. apply Hnot.
    exists data. split; [|done]. apply elem_of_app. right. apply elem_of_cons. by left.
Qed.

(** Claim C6, as amended.  Every call of [update_camera_feed] whose message
    can be decoded (a buffer of at least 3*W*H bytes) overwrites the single
    Current Frame slot, whatever it held; a call on a shorter buffer raises
    and leaves the slot as it was.  Hence, after any sequence of events since
    start-up, the Current Frame, when present, is the bitmap decoded from the
    most recent image message that could be decoded, and that is the bitmap
    of any file a capture at this point writes: no older frame is kept or
    replayed. *)
Theorem current_frame_is_latest
    (env : Env) (fuel : nat) (evs : list event) (w0 w : World) :
  handled env fuel evs (RSFCApp_init w0) = Some w ->
  (∀ data w1, decodable data = true ->
     current_frame (win (world_of (update_camera_feed data w1)))
     = Some (decode data)) ∧
  (∀ data w1, decodable data = false ->
     ∃ e, update_camera_feed data w1 = Raises e w1) ∧
  current_frame (win w) = latest_decoded evs None ∧
  (∀ img, current_frame (win w) = Some img ->
     (∃ data earlier later,
        evs = earlier ++ image_received data :: later ∧
        decodable data = true ∧
        ¬ decoded later ∧
        img = decode data) ∧
     ∀ p, files (fs (world_of (capture_frame env w))) !! p = files (fs w) !! p
          ∨ files (fs (world_of (capture_frame env w))) !! p = Some (PNG img)).
Proof.
  intros Hrun. apply handled_current_frame in Hrun as Hslot. cbn in Hslot.
  split.
  { intros data w1 Hdec. by rewrite update_camera_feed_slot, Hdec. }
  split.
  { intros data w1 Hdec. rewrite update_camera_feed_outcome, Hdec. eauto. }
  split; [exact Hslot|].
  intros img Himg. split.
  - destruct (latest_decoded_split evs None)
      as [[_ Hsame] | (data & earlier & later & Hevs & Hdec & Hnone & Hlast)];
      [congruence|].
    exists data, earlier, later.
    assert (img = decode data) as -> by congruence. done.
  - intros p. rewrite (capture_frame_Some env w img Himg).
    destruct (makedirs_raises env w); [by left|]. cbn [world_of].
    destruct (captured_files_lookup env img w p) as [? | [_ ?]]; [by left | by right].
Qed.

Lemma current_frame_is_latest_witness :
  ∃ w, handled sample_env 3
         [image_received sample_image; image_received short_image; capture_clicked]
         (RSFCApp_init fresh_world) = Some w ∧
       current_frame (win w) = Some (decode sample_image).
Proof.
  eassert (Hrun : handled sample_env 3
                    [image_received sample_image; image_received short_image;
                     capture_clicked]
                    (RSFCApp_init fresh_world) = Some _) by (vm_compute; reflexivity).
  eexists. split; [exact Hrun|].
  rewrite (proj1 (proj2 (proj2 (current_frame_is_latest _ _ _ _ _ Hrun)))).
  vm_compute. reflexivity.
Defined.

(** Claim C6, as stated, fails: an image message whose buffer is shorter than
    its announced size makes [update_camera_feed] raise before the slot is
    assigned, so after it the Current Frame is still the bitmap of the older
    message. *)
Lemma short_buffer_keeps_older_frame :
  handled sample_env 3 [image_received sample_image; image_received short_image]
    (RSFCApp_init fresh_world) = Some world_with_frame ∧
  (∃ e, update_camera_feed short_image world_with_frame = Raises e world_with_frame) ∧
  current_frame (win world_with_frame) = Some (decode sample_image) ∧
  decode sample_image ≠ decode short_image.
Proof.
  split; [vm_compute; reflexivity|].
  split; [eexists; vm_compute; reflexivity|].
  split; [reflexivity|].
  intros Heq. apply (f_equal height) in Heq. discriminate Heq.
Qed.

Lemma capture_frame_calls (env : Env) (w : World) :
  fs_calls (world_of (capture_frame env w)) ≠ fs_calls w
  ↔ current_frame (win w) ≠ None.
Proof.
  destruct (current_frame (win w)) as [img|] eqn:Hframe.
  - rewrite (capture_frame_Some env w img Hframe). split; [done|]. intros _ Heq.
    apply (f_equal length) in Heq.
    destruct (makedirs_raises env w); cbn [world_of] in Heq.
    + cbn in Heq. rewrite !length_app in Heq. cbn in Heq. lia.
    + rewrite length_calls_captured in Heq. destruct (exists_answer env w); lia.
  - rewrite (capture_frame_None env w Hframe). cbn [world_of fs_calls].
    split; [done | by intros []].
Qed.

(** Claim C9, as amended.  [capture_frame] branches on the Python truth value
    of the stored frame: the slot is [None] exactly as long as no image
    message has been decoded and stored, and every stored frame object is
    true.  So, after any sequence of events since start-up, [capture_frame]
    performs file I/O if and only if at least one image message has been
    decoded; an empty image (no rows or no columns) is decoded and counts, a
    message whose buffer is shorter than 3*W*H raises in the callback and
    does not. *)
Theorem capture_frame_io_iff_delivered
    (env : Env) (fuel : nat) (evs : list event) (w0 w : World) :
  handled env fuel evs (RSFCApp_init w0) = Some w ->
  (current_frame (win w) = None ↔ ¬ decoded evs) ∧
  (∀ img, truth (Some img) = true) ∧
  (fs_calls (world_of (capture_frame env w)) ≠ fs_calls w ↔ decoded evs) ∧
  (∀ data, msg_width data = 0 ∨ msg_height data = 0 -> decodable data = true) ∧
  (∀ data, length (msg_data data) < 3 * msg_width data * msg_height data ->
     decodable data = false).
Proof.
  intros Hrun. apply handled_current_frame in Hrun as Hslot. cbn in Hslot.
  assert (Hnone : current_frame (win w) = None ↔ ¬ decoded evs).
  { rewrite Hslot. apply latest_decoded_None. }
  split; [exact Hnone|]. split; [done|]. split; [|split].
  - rewrite capture_frame_calls. split.
    + intros Hsome.
      destruct (latest_decoded_split evs None)
        as [[Hnot _] | (data & earlier & later & -> & Hdec & _)].
      * by apply Hnone in Hnot.
      * exists data. split; [|done].
        apply elem_of_app. right. apply elem_of_cons. by left.
    + intros Hdec Hslot0. by apply Hnone in Hslot0.
  - intros data Hempty. unfold decodable. apply Nat.leb_le.
    destruct Hempty as [-> | ->]; lia.
  - intros data Hshort. unfold decodable. apply Nat.leb_gt. lia.
Qed.

Lemma capture_frame_io_iff_delivered_witness :
  ∃ w, handled sample_env 3 [image_received short_image; image_received sample_image]
         (RSFCApp_init fresh_world) = Some w ∧
       fs_calls (world_of (capture_frame sample_env w)) ≠ fs_calls w.
Proof.
  eassert (Hrun : handled sample_env 3
                    [image_received short_image; image_received sample_image]
                    (RSFCApp_init fresh_world) = Some _) by (vm_compute; reflexivity).
  eexists. split; [exact Hrun|].
  apply (proj1 (proj2 (proj2 (capture_frame_io_iff_delivered _ _ _ _ _ Hrun)))).
  exists sample_image. split; [|reflexivity].
  apply elem_of_cons. right. apply elem_of_cons. by left.
Defined.

(** Claim C9, as stated, fails: an image message whose buffer is shorter than
    its announced size is delivered to the callback, which raises before the
    slot is assigned; the slot is still [None] afterwards and a capture
    performs no file I/O. *)
Lemma delivered_short_buffer_no_io :
  delivered [image_received short_image] ∧
  ∃ w, handled sample_env 3 [image_received short_image] (RSFCApp_init fresh_world)
       = Some w ∧
       current_frame (win w) = None ∧
       ∃ w', capture_frame sample_env w = Returns tt w' ∧
             fs_calls w' = fs_calls w ∧ fs w' = fs w.
Proof.
  split.
  { exists short_image. apply elem_of_cons. by left. }
  eexists. split; [vm_compute; reflexivity|].
  split; [reflexivity|].
  eexists. split; [vm_compute; reflexivity|]. split; reflexivity.
Qed.

(** * Further properties of the three methods *)

(** ** How long [spawn_robot] waits *)

(** The wait returns at the first poll that finds the service registered. *)
Lemma wait_for_service_first (env : Env) (t fuel : nat) (name : string) (w : World) :
  (∀ k, k < t -> registered env (master_polls (ros w) + k) = false) ->
  registered env (master_polls (ros w) + t) = true ->
  t < fuel ->
  ∃ w', wait_for_service env fuel name w = Returns tt w' ∧
        master_polls (ros w') = master_polls (ros w) + S t.
Proof.
  revert fuel w. induction t as [|t IH]; intros fuel w Hnot Hreg Hfuel;
    destruct fuel as [|fuel]; try lia; cbn [wait_for_service].
  - rewrite Nat.add_0_r in Hreg. rewrite Hreg.
    eexists. split; [done|]. cbn. lia.
  - pose proof (Hnot 0 ltac:(lia)) as H0. rewrite Nat.add_0_r in H0. rewrite H0.
    destruct (IH fuel (poll w)) as (w' & Hwait & Hpolls).
    + intros k Hk. rewrite <- (Hnot (S k)) by lia. f_equal. cbn. lia.
    + rewrite <- Hreg. f_equal. cbn. lia.
    + lia.
    + exists w'. split; [done|]. rewrite Hpolls. cbn. lia.
Qed.

(** Before that poll the wait is still blocked. *)
Lemma wait_for_service_too_early (env : Env) (fuel : nat) (name : string) (w : World) :
  (∀ k, k < fuel -> registered env (master_polls (ros w) + k) = false) ->
  ∃ w', wait_for_service env fuel name w = Blocked w'.
Proof.
  revert w. induction fuel as [|fuel IH]; intros w Hnot; cbn [wait_for_service].
  - eauto.
  - pose proof (Hnot 0 ltac:(lia)) as H0. rewrite Nat.add_0_r in H0. rewrite H0.
    apply IH. intros k Hk. rewrite <- (Hnot (S k)) by lia. f_equal. cbn. lia.
Qed.

(** A wait that returned has found the service registered. *)
Lemma wait_for_service_returned (env : Env) (fuel : nat) (name : string) (w w' : World) :
  wait_for_service env fuel name w = Returns tt w' ->
  ∃ t, t < fuel ∧ registered env (master_polls (ros w) + t) = true.
Proof.
  revert w. induction fuel as [|fuel IH]; intros w; cbn [wait_for_service]; [done|].
  destruct (registered env (master_polls (ros w))) eqn:Hreg.
  - intros _. exists 0. split; [lia|]. by rewrite Nat.add_0_r.
  - intros Hwait. destruct (IH _ Hwait) as (t & Hlt & Ht).
    exists (S t). split; [lia|]. rewrite <- Ht. f_equal. cbn. lia.
Qed.

Lemma spawn_robot_returns_after_wait (env : Env) (fuel : nat) (w w1 : World) :
  wait_for_service env fuel "/gazebo/set_model_state" w = Returns tt w1 ->
  ∃ w', spawn_robot env fuel w = Returns tt w' ∧
        master_polls (ros w') = master_polls (ros w1).
Proof.
  intros Hwait. pose proof (spawn_robot_paths env fuel w) as Hpaths.
  rewrite Hwait in Hpaths.
  destruct (next_reply env w); eexists; (split; [exact Hpaths|done]).
Qed.

(** X1.  [spawn_robot] comes back exactly when the relocation service is
    registered at some poll from now on; it has no other way out of
    [wait_for_service]. *)
Theorem spawn_robot_returns_iff_registered (env : Env) (w : World) :
  (∃ fuel w', spawn_robot env fuel w = Returns tt w')
  ↔ ∃ t, registered env (master_polls (ros w) + t) = true.
Proof.
  split.
  - intros (fuel & w' & Hrun).
    pose proof (spawn_robot_paths env fuel w) as Hpaths.
    destruct (wait_for_service env fuel "/gazebo/set_model_state" w)
      as [[] w1 | e w1 | w1] eqn:Hwait; [|done|congruence].
    destruct (wait_for_service_returned _ _ _ _ _ Hwait) as (t & _ & Ht). eauto.
  - intros (t & Hreg).
    destruct (wait_for_service_returns env t "/gazebo/set_model_state" w Hreg)
      as [w1 Hwait].
    destruct (spawn_robot_returns_after_wait _ _ _ _ Hwait) as (w' & Hrun & _).
    eauto.
Qed.

(** X2.  When the service first shows up at the t-th poll from now,
    [spawn_robot] is still blocked after t polls or fewer, and returns after
    exactly t + 1 polls however much longer one is ready to wait. *)
Theorem spawn_robot_polls_until_registered (env : Env) (w : World) (t : nat) :
  (∀ k, k < t -> registered env (master_polls (ros w) + k) = false) ->
  registered env (master_polls (ros w) + t) = true ->
  (∀ fuel, fuel ≤ t -> ∃ w', spawn_robot env fuel w = Blocked w') ∧
  (∀ fuel, t < fuel ->
     ∃ w', spawn_robot env fuel w = Returns tt w' ∧
           master_polls (ros w') = master_polls (ros w) + S t).
Proof.
  intros Hnot Hreg. split; intros fuel Hfuel.
  - destruct (wait_for_service_too_early env fuel "/gazebo/set_model_state" w)
      as [w1 Hwait].
    { intros k Hk. apply Hnot. lia. }
    pose proof (spawn_robot_paths env fuel w) as Hpaths.
    rewrite Hwait in Hpaths. eauto.
  - destruct (wait_for_service_first env t fuel "/gazebo/set_model_state" w
                Hnot Hreg Hfuel) as (w1 & Hwait & Hpolls).
    destruct (spawn_robot_returns_after_wait _ _ _ _ Hwait) as (w' & Hrun & Hsame).
    exists w'. split; [done|]. by rewrite Hsame.
Qed.

Lemma spawn_robot_polls_until_registered_witness :
  (∃ w', spawn_robot sample_env 2 fresh_world = Blocked w') ∧
  (∃ w', spawn_robot sample_env 7 fresh_world = Returns tt w' ∧
         master_polls (ros w') = 3).
Proof.
  assert (Hnot : ∀ k, k < 2 ->
            registered sample_env (master_polls (ros fresh_world) + k) = false).
  { intros [|[|k]] Hk; [reflexivity | reflexivity | lia]. }
  destruct (spawn_robot_polls_until_registered sample_env fresh_world 2 Hnot eq_refl)
    as [Hearly Hlate].
  split.
  - apply Hearly. lia.
  - apply Hlate. lia.
Defined.

(** ** One event at a time *)

Lemma run_cons (env : Env) (fuel : nat) (ev : event) (evs : list event) (w w' : World) :
  run env fuel (ev :: evs) w = Returns tt w' ->
  ∃ w1, dispatch env fuel ev w = Returns tt w1 ∧ run env fuel evs w1 = Returns tt w'.
Proof.
  cbn [run]. unfold mbind, M_bind.
  destruct (dispatch env fuel ev w) as [[] w1 | |]; [eauto|done|done].
Qed.

Lemma spawn_robot_step (env : Env) (fuel : nat) (w w1 : World) :
  spawn_robot env fuel w = Returns tt w1 ->
  win w1 = win w ∧ fs w1 = fs w ∧ fs_calls w1 = fs_calls w ∧
  clock_reads w1 = clock_reads w ∧
  service_calls (ros w1) = service_calls (ros w) ++ [request_of w] ∧
  length (rosout (ros w1)) ≤ S (length (rosout (ros w))).
Proof.
  intros Hrun.
  pose proof (wait_for_service_only_polls env fuel "/gazebo/set_model_state" w) as Hw.
  pose proof (spawn_robot_paths env fuel w) as Hpaths.
  destruct (wait_for_service env fuel "/gazebo/set_model_state" w)
    as [[] w0 | e w0 | w0]; [|done|congruence].
  destruct Hw as (Hwin & Hfs & Hcalls & Hclock & Hsent & Hlog).
  destruct (next_reply env w); rewrite Hpaths in Hrun;
    injection Hrun as <-; cbn; rewrite Hsent, Hlog, ?length_app; cbn;
    repeat split; try done; lia.
Qed.

(** [spawn_robot] never lets an exception out, and while it waits it has
    sent and logged nothing. *)
Lemma spawn_robot_unfinished (env : Env) (fuel : nat) (w : World) :
  (∀ e u, spawn_robot env fuel w ≠ Raises e u) ∧
  (∀ u, spawn_robot env fuel w = Blocked u ->
        win u = win w ∧ service_calls (ros u) = service_calls (ros w) ∧
        rosout (ros u) = rosout (ros w)).
Proof.
  pose proof (wait_for_service_only_polls env fuel "/gazebo/set_model_state" w) as Hw.
  pose proof (spawn_robot_paths env fuel w) as Hpaths.
  destruct (wait_for_service env fuel "/gazebo/set_model_state" w)
    as [[] w0 | e0 w0 | w0]; [|done|].
  - split; [intros e u | intros u]; destruct (next_reply env w); congruence.
  - rewrite Hpaths. split; [done|]. intros u [= <-].
    by destruct Hw as (Hwin & _ & _ & _ & Hsent & Hlog).
Qed.

(** A capture that returns either found the slot empty and touched neither
    files nor clock, or found a frame, got past [os.makedirs] and left the
    world [captured]. *)
Lemma capture_frame_step (env : Env) (w w1 : World) :
  capture_frame env w = Returns tt w1 ->
  inputs (win w1) = inputs (win w) ∧
  camera_feed (win w1) = camera_feed (win w) ∧
  current_frame (win w1) = current_frame (win w) ∧
  ros w1 = ros w ∧
  ((current_frame (win w) = None ∧ fs w1 = fs w ∧ fs_calls w1 = fs_calls w ∧
    clock_reads w1 = clock_reads w)
   ∨ ∃ img, current_frame (win w) = Some img ∧ makedirs_raises env w = None ∧
            w1 = captured env img w).
Proof.
  destruct (current_frame (win w)) as [img|] eqn:Hframe.
  - rewrite (capture_frame_Some env w img Hframe).
    destruct (makedirs_raises env w) eqn:Hraise; [done|]. intros [= <-].
    repeat split; try done. right. eauto.
  - rewrite (capture_frame_None env w Hframe). intros [= <-].
    repeat split; try done. by left.
Qed.

Lemma update_camera_feed_step (data : Image) (w w1 : World) :
  update_camera_feed data w = Returns tt w1 ->
  current_frame (win w1) = Some (decode data) ∧
  camera_feed (win w1) = Some (QPixmap_fromImage (decode data)) ∧
  capture_frame_output (win w1) = capture_frame_output (win w) ∧
  inputs (win w1) = inputs (win w) ∧
  fs w1 = fs w ∧ fs_calls w1 = fs_calls w ∧
  clock_reads w1 = clock_reads w ∧ ros w1 = ros w.
Proof.
  rewrite update_camera_feed_outcome.
  destruct (decodable data); [|done]. by intros [= <-].
Qed.

Lemma spawn_clicks_cons (ev : event) (evs : list event) :
  spawn_clicks (ev :: evs) = spawn_clicks [ev] + spawn_clicks evs.
Proof. by destruct ev. Qed.

(** What one event does to the input fields and to the ROS side, however
    its handler ends. *)
Lemma dispatch_requests (env : Env) (fuel : nat) (ev : event) (w : World) :
  inputs (win (world_of (dispatch env fuel ev w))) = inputs (win w) ∧
  ∃ k, k ≤ spawn_clicks [ev] ∧
       service_calls (ros (world_of (dispatch env fuel ev w)))
       = service_calls (ros w) ++ replicate k (request_of w) ∧
       length (rosout (ros (world_of (dispatch env fuel ev w))))
       ≤ length (rosout (ros w)) + k ∧
       (∀ u, dispatch env fuel ev w = Returns tt u -> k = spawn_clicks [ev]).
Proof.
  destruct ev as [| |data]; cbn [dispatch spawn_clicks].
  - destruct (spawn_robot_unfinished env fuel w) as (Hnever & Hwaits).
    destruct (spawn_robot env fuel w) as [[] u | e u | u] eqn:Hrun; cbn [world_of].
    + apply spawn_robot_step in Hrun as (Hwin & _ & _ & _ & Hsent & Hlog).
      rewrite Hwin. split; [done|]. exists 1. cbn [replicate].
      repeat split; [lia | done | lia].
    + by destruct (Hnever e u).
    + destruct (Hwaits u eq_refl) as (Hwin & Hsent & Hlog).
      rewrite Hwin. split; [done|]. exists 0. cbn [replicate].
      rewrite app_nil_r, Hlog. repeat split; [lia | done | lia | done].
  - destruct (capture_frame_keeps env w) as (Hin & _ & _ & Hros).
    split; [done|]. exists 0. rewrite Hros. cbn [replicate].
    rewrite app_nil_r. repeat split; lia.
  - rewrite update_camera_feed_outcome. 
    destruct (decodable data); cbn [world_of]; (split; [done|]); exists 0;
      cbn [replicate]; rewrite app_nil_r; repeat split; cbn; lia.
Qed.

(** With the relocation service registered no handler is left waiting. *)
Lemma dispatch_not_blocked (env : Env) (fuel : nat) (ev : event) (w w1 : World) :
  (∀ n, registered env n = true) -> 0 < fuel ->
  dispatch env fuel ev w ≠ Blocked w1.
Proof.
  intros Hreg Hfuel. destruct ev as [| |data]; cbn [dispatch].
  - pose proof (spawn_robot_paths env fuel w) as Hpaths.
    destruct fuel as [|fuel]; [lia|].
    cbn [wait_for_service] in Hpaths. rewrite Hreg in Hpaths.
    destruct (next_reply env w); congruence.
  - destruct (current_frame (win w)) as [img|] eqn:Hframe.
    + rewrite (capture_frame_Some env w img Hframe).
      by destruct (makedirs_raises env w).
    + by rewrite (capture_frame_None env w Hframe).
  - rewrite update_camera_feed_outcome. by destruct (decodable data).
Qed.

(** ** What a whole session does *)

Lemma run_requests (env : Env) (fuel : nat) (evs : list event) (w : World) :
  inputs (win (world_of (run env fuel evs w))) = inputs (win w) ∧
  ∃ k, k ≤ spawn_clicks evs ∧
       service_calls (ros (world_of (run env fuel evs w)))
       = service_calls (ros w) ++ replicate k (request_of w) ∧
       length (rosout (ros (world_of (run env fuel evs w))))
       ≤ length (rosout (ros w)) + k ∧
       (∀ u, run env fuel evs w = Returns tt u -> k = spawn_clicks evs).
Proof.
  revert w. induction evs as [|ev evs IH]; intros w.
  - split; [done|]. exists 0. cbn. rewrite app_nil_r. repeat split; lia.
  - rewrite spawn_clicks_cons. cbn [run]. unfold mbind, M_bind.
    destruct (dispatch_requests env fuel ev w) as (Hin & k1 & Hk1 & Hsent1 & Hlog1 & Hall1).
    destruct (dispatch env fuel ev w) as [[] w1 | e w1 | w1]; cbn [world_of] in *.
    + destruct (IH w1) as (Hin' & k & Hk & Hsent & Hlog & Hall).
      assert (Hreq : request_of w1 = request_of w)
        by (unfold request_of; by rewrite Hin).
      split; [by rewrite Hin'|]. exists (k1 + k). split; [lia|].
      rewrite Hsent, Hsent1, Hreq, replicate_add, <- app_assoc.
      split; [done|]. split; [lia|].
      intros u Hu. by rewrite (Hall u Hu), (Hall1 w1 eq_refl).
    + split; [done|]. exists k1. repeat split; [lia | done | done | done].
    + split; [done|]. exists k1. repeat split; [lia | done | done | done].
Qed.

Lemma run_returns (env : Env) (fuel : nat) (evs : list event) (w : World) :
  (∀ n, registered env n = true) -> 0 < fuel ->
  (∀ e u, run env fuel evs w ≠ Raises e u) ->
  ∃ u, run env fuel evs w = Returns tt u.
Proof.
  intros Hreg Hfuel. revert w. induction evs as [|ev evs IH]; intros w Hnever.
  - by eexists.
  - cbn [run] in *. unfold mbind, M_bind in *.
    pose proof (dispatch_not_blocked env fuel ev w) as Hgoes.
    destruct (dispatch env fuel ev w) as [[] w1 | e w1 | w1].
    + by apply IH.
    + by destruct (Hnever e w1).
    + by destruct (Hgoes w1 Hreg Hfuel).
Qed.

(** X3.  Over a session, however it ends, the five input fields are never
    changed and the requests sent are copies of the one built from the inputs
    at the start: one for each click on the spawn button whose handler
    returned, so one per click when the session ran to its end, with at most
    one log entry each.  A click left waiting for the service sends nothing;
    with the service registered, a session in which no handler raises runs to
    its end. *)
Theorem run_sends_one_request_per_spawn
    (env : Env) (fuel : nat) (evs : list event) (w : World) :
  let w' := world_of (run env fuel evs w) in
  inputs (win w') = inputs (win w) ∧
  (∃ k, k ≤ spawn_clicks evs ∧
        service_calls (ros w')
        = service_calls (ros w) ++ replicate k (request_of w) ∧
        length (rosout (ros w')) ≤ length (rosout (ros w)) + k ∧
        (∀ u, run env fuel evs w = Returns tt u -> k = spawn_clicks evs)) ∧
  (∀ u, spawn_robot env fuel w = Blocked u ->
        service_calls (ros u) = service_calls (ros w)) ∧
  ((∀ n, registered env n = true) -> 0 < fuel ->
   (∀ e u, run env fuel evs w ≠ Raises e u) ->
   ∃ u, run env fuel evs w = Returns tt u).
Proof.
  cbn zeta. destruct (run_requests env fuel evs w) as (Hin & Hk).
  split; [exact Hin|]. split; [exact Hk|]. split.
  - intros u Hrun.
    by destruct (proj2 (spawn_robot_unfinished env fuel w) u Hrun) as (_ & Hsent & _).
  - apply run_returns.
Qed.

Lemma run_sends_one_request_per_spawn_witness :
  ∃ w', run sample_env 3 [spawn_clicked; capture_clicked; spawn_clicked] fresh_world
        = Returns tt w' ∧
        service_calls (ros w')
        = [request_of fresh_world; request_of fresh_world].
Proof.
  eassert (Hrun : run sample_env 3 [spawn_clicked; capture_clicked; spawn_clicked]
                    fresh_world = Returns tt _) by (vm_compute; reflexivity).
  eexists. split; [exact Hrun|].
  pose proof (run_sends_one_request_per_spawn sample_env 3
                [spawn_clicked; capture_clicked; spawn_clicked] fresh_world) as Hall.
  cbn zeta in Hall. destruct Hall as (_ & (k & _ & Hcalls & _ & Hk) & _).
  rewrite Hrun in Hcalls. cbn [world_of] in Hcalls.
  rewrite Hcalls, (Hk _ Hrun). reflexivity.
Defined.
(** X4.  The preview never shows anything but the frame a capture would
    save: after any session since start-up, when the slot holds a frame the
    preview widget shows that same frame, and while no image message has
    arrived the preview is as the [.ui] file left it. *)
Theorem preview_shows_current_frame
    (env : Env) (fuel : nat) (evs : list event) (w0 w : World) :
  run env fuel evs (RSFCApp_init w0) = Returns tt w ->
  preview_in_sync (win w) ∧
  (¬ delivered evs -> camera_feed (win w) = camera_feed (win w0)).
Proof.
  assert (Hgen : ∀ evs w1 w2,
            run env fuel evs w1 = Returns tt w2 ->
            (preview_in_sync (win w1) -> preview_in_sync (win w2)) ∧
            (¬ delivered evs -> camera_feed (win w2) = camera_feed (win w1))).
  { clear. induction evs as [|ev evs IH]; intros w1 w2 Hrun.
    - by injection Hrun as <-.
    - apply run_cons in Hrun as (w' & Hstep & Hrest).
      destruct (IH _ _ Hrest) as (Hsync & Hfeed).
      assert (Hdel : ∀ ev', ¬ delivered (ev' :: evs) -> ¬ delivered evs).
      { intros ev' Hnot (d & Hd). apply Hnot. exists d.
        apply elem_of_cons. by right. }
      destruct ev as [| |data]; cbn [dispatch] in Hstep.
      + apply spawn_robot_step in Hstep as (Hwin & _). rewrite Hwin in *.
        split; [done|]. intros Hnot. apply Hfeed. by eapply Hdel.
      + apply capture_frame_step in Hstep as (_ & Hcam & Hcur & _).
        split.
        * intros Hs. apply Hsync. intros img. rewrite Hcur, Hcam. apply Hs.
        * intros Hnot. rewrite <- Hcam. apply Hfeed. by eapply Hdel.
      + apply update_camera_feed_step in Hstep as (Hcur & Hcam & _).
        split.
        * intros _. apply Hsync. intros img. rewrite Hcur, Hcam. by intros [= <-].
        * intros Hnot. exfalso. apply Hnot. exists data. apply elem_of_cons. by left. }
  intros Hrun. destruct (Hgen _ _ _ Hrun) as (Hsync & Hfeed).
  split; [|exact Hfeed]. apply Hsync. intros img. by cbn.
Qed.

Lemma preview_shows_current_frame_witness :
  ∃ w, run sample_env 3 sample_session (RSFCApp_init fresh_world) = Returns tt w ∧
       camera_feed (win w) = Some (QPixmap_fromImage (decode sample_image)).
Proof.
  eassert (Hrun : run sample_env 3 sample_session (RSFCApp_init fresh_world)
                  = Returns tt _) by (vm_compute; reflexivity).
  eexists. split; [exact Hrun|].
  apply (proj1 (preview_shows_current_frame _ _ _ _ _ Hrun)).
  vm_compute. reflexivity.
Defined.

(** X5.  An exception leaves a session only from two places: the decoding of
    an image message whose buffer is shorter than its announced size, which
    raises before anything has been changed, and the [os.makedirs] call of a
    capture that found a frame, when [os.path.exists] has answered False and
    yet the directory cannot be made.  [spawn_robot] lets none out, and the
    events before the raising one were handled to their end. *)
Theorem run_raises_only_from_decode_or_makedirs
    (env : Env) (fuel : nat) (evs : list event) (w : World) (e : exn) (w' : World) :
  run env fuel evs w = Raises e w' ->
  ∃ earlier ev later w1,
    evs = earlier ++ ev :: later ∧
    run env fuel earlier w = Returns tt w1 ∧
    dispatch env fuel ev w1 = Raises e w' ∧
    ((∃ data, ev = image_received data ∧ decodable data = false ∧ w' = w1)
     ∨ (ev = capture_clicked ∧ current_frame (win w1) ≠ None ∧
        makedirs_raises env w1 = Some e ∧
        fs w' = fs w1 ∧ win w' = win w1)).
Proof.
  revert w. induction evs as [|ev evs IH]; intros w; cbn [run]; [done|].
  unfold mbind, M_bind.
  destruct (dispatch env fuel ev w) as [[] w1 | e1 w1 | w1] eqn:Hstep; [| |done].
  - intros Hrest.
    destruct (IH _ Hrest) as (earlier & ev' & later & w2 & -> & Hrun & Hraise & Hcase).
    exists (ev :: earlier), ev', later, w2. split; [done|]. split; [|done].
    cbn [run]. unfold mbind, M_bind. by rewrite Hstep.
  - intros [= -> ->]. exists [], ev, evs, w. split; [done|]. split; [done|].
    split; [done|].
    destruct ev as [| |data]; cbn [dispatch] in Hstep.
    + by destruct (proj1 (spawn_robot_unfinished env fuel w) e w').
    + right. destruct (current_frame (win w)) as [img|] eqn:Hframe.
      * rewrite (capture_frame_Some env w img Hframe) in Hstep.
        destruct (makedirs_raises env w) as [e0|]; [|done].
        injection Hstep as -> <-. by repeat split.
      * by rewrite (capture_frame_None env w Hframe) in Hstep.
    + left. exists data. rewrite update_camera_feed_outcome in Hstep.
      destruct (decodable data); [done|]. by injection Hstep as _ <-.
Qed.

Lemma run_raises_only_from_decode_or_makedirs_witness :
  ∃ e w',
    run sample_env 3
      [image_received sample_image; image_received short_image; capture_clicked]
      fresh_world = Raises e w' ∧
    ∃ earlier ev later w1,
      [image_received sample_image; image_received short_image; capture_clicked]
      = earlier ++ ev :: later ∧
      run sample_env 3 earlier fresh_world = Returns tt w1 ∧
      dispatch sample_env 3 ev w1 = Raises e w' ∧
      ((∃ data, ev = image_received data ∧ decodable data = false ∧ w' = w1)
       ∨ (ev = capture_clicked ∧ current_frame (win w1) ≠ None ∧
          makedirs_raises sample_env w1 = Some e ∧
          fs w' = fs w1 ∧ win w' = win w1)).
Proof.
  eassert (Hrun : run sample_env 3
                    [image_received sample_image; image_received short_image;
                     capture_clicked] fresh_world = Raises _ _)
    by (vm_compute; reflexivity).
  eexists _, _. split; [exact Hrun|].
  exact (run_raises_only_from_decode_or_makedirs _ _ _ _ _ _ Hrun).
Defined.

(** ** Files written during a session *)

(** Every file a run touches holds a frame that was in the slot at the start
    or was decoded from one of its image messages. *)
Lemma run_files (Q : QImage -> Prop) (env : Env) (fuel : nat) (evs : list event)
    (w w' : World) :
  run env fuel evs w = Returns tt w' ->
  (∀ img, current_frame (win w) = Some img -> Q img) ->
  (∀ data, image_received data ∈ evs -> Q (decode data)) ->
  ∀ p, files (fs w') !! p = files (fs w) !! p
       ∨ ∃ img timestamp,
           Q img ∧ has_layout "YYYY-MM-DD_HH:MM:SS" timestamp = true ∧
           p = screenshot_path timestamp ∧
           files (fs w') !! p = Some (PNG img).
Proof.
  revert w. induction evs as [|ev evs IH]; intros w Hrun Hslot Hevs p.
  - injection Hrun as <-. by left.
  - apply run_cons in Hrun as (w1 & Hstep & Hrest).
    assert (Hevs' : ∀ data, image_received data ∈ evs -> Q (decode data)).
    { intros data Hd. apply Hevs. apply elem_of_cons. by right. }
    destruct ev as [| |data]; cbn [dispatch] in Hstep.
    + apply spawn_robot_step in Hstep as (Hwin & Hfs & _).
      rewrite <- Hfs. apply IH; [done| by rewrite Hwin |done].
    + apply capture_frame_step in Hstep as (_ & _ & Hcur & _ & Hcase).
      destruct (IH w1 Hrest ltac:(by rewrite Hcur) Hevs' p) as [Hsame | Hnew];
        [|by right].
      destruct Hcase as [(_ & Hfs & _) | (img & Himg & _ & ->)].
      * left. by rewrite Hsame, Hfs.
      * rewrite Hsame.
        destruct (captured_files_lookup env img w p) as [Hold | [Hp Hfile]];
          [by left|].
        right. exists img, (timestamp_at env w).
        split; [by apply Hslot|]. split; [apply strftime_layout|]. done.
    + apply update_camera_feed_step in Hstep
        as (Hcur & _ & _ & _ & Hfs & _).
      rewrite <- Hfs. apply IH; [done| |done].
      intros img. rewrite Hcur. intros [= <-]. apply Hevs. apply elem_of_cons. by left.
Qed.

(** X6.  Whatever file a session since start-up has created or changed is a
    PNG under [screenshots/] with a timestamped name, and it holds the bitmap
    decoded from an image message delivered in that session; every other
    file is as it was. *)
Theorem run_writes_only_delivered_frames
    (env : Env) (fuel : nat) (evs : list event) (w0 w : World) :
  run env fuel evs (RSFCApp_init w0) = Returns tt w ->
  ∀ p, files (fs w) !! p = files (fs w0) !! p
       ∨ ∃ data timestamp,
           image_received data ∈ evs ∧
           has_layout "YYYY-MM-DD_HH:MM:SS" timestamp = true ∧
           p = "screenshots/camera_feed_screenshot_" +:+ timestamp +:+ ".png" ∧
           files (fs w) !! p = Some (PNG (decode data)).
Proof.
  intros Hrun p.
  destruct (run_files (λ img, ∃ data, image_received data ∈ evs ∧ img = decode data)
              env fuel evs _ _ Hrun) with (p := p)
    as [Hsame | (img & timestamp & (data & Hdata & ->) & Hlayout & Hp & Hfile)].
  - by intros img.
  - intros data Hdata. eauto.
  - by left.
  - right. exists data, timestamp. done.
Qed.

Lemma run_writes_only_delivered_frames_witness :
  ∃ w, run sample_env 3 sample_session (RSFCApp_init fresh_world) = Returns tt w ∧
       ∃ data timestamp,
         image_received data ∈ sample_session ∧
         has_layout "YYYY-MM-DD_HH:MM:SS" timestamp = true ∧
         "screenshots/camera_feed_screenshot_2024-03-09_14:05:07.png"
         = "screenshots/camera_feed_screenshot_" +:+ timestamp +:+ ".png" ∧
         files (fs w) !! "screenshots/camera_feed_screenshot_2024-03-09_14:05:07.png"
         = Some (PNG (decode data)).
Proof.
  eassert (Hrun : run sample_env 3 sample_session (RSFCApp_init fresh_world)
                  = Returns tt _) by (vm_compute; reflexivity).
  eexists. split; [exact Hrun|].
  destruct (run_writes_only_delivered_frames _ _ _ _ _ Hrun
              "screenshots/camera_feed_screenshot_2024-03-09_14:05:07.png")
    as [Hsame | Hnew].
  - vm_compute in Hsame. discriminate Hsame.
  - exact Hnew.
Defined.

(** X7.  A session never removes anything: every file and directory that
    was there is still there afterwards, and the only directory it can add
    is [screenshots]. *)
Theorem run_never_deletes
    (env : Env) (fuel : nat) (evs : list event) (w w' : World) :
  run env fuel evs w = Returns tt w' ->
  dom (files (fs w)) ⊆ dom (files (fs w')) ∧
  dirs (fs w) ⊆ dirs (fs w') ∧
  dirs (fs w') ⊆ dirs (fs w) ∪ {["screenshots"]}.
Proof.
  revert w. induction evs as [|ev evs IH]; intros w Hrun.
  - injection Hrun as <-. set_solver.
  - apply run_cons in Hrun as (w1 & Hstep & Hrest).
    destruct (IH _ Hrest) as (Hfiles & Hdirs & Hnew).
    destruct ev as [| |data]; cbn [dispatch] in Hstep.
    + apply spawn_robot_step in Hstep as (_ & Hfs & _). by rewrite <- Hfs.
    + apply capture_frame_step in Hstep
        as (_ & _ & _ & _ & [(_ & Hfs & _) | (img & _ & _ & ->)]).
      * by rewrite <- Hfs.
      * rewrite captured_files, captured_dirs in *.
        destruct (capture_saves env img w); rewrite ?dom_insert_L in Hfiles;
          destruct (exists_answer env w); set_solver.
    + apply update_camera_feed_step in Hstep as (_ & _ & _ & _ & Hfs & _).
      by rewrite <- Hfs.
Qed.

Lemma run_never_deletes_witness :
  ∃ w', run sample_env 3 sample_session world_with_screenshot = Returns tt w' ∧
        dom (files (fs world_with_screenshot)) ⊆ dom (files (fs w')).
Proof.
  eassert (Hrun : run sample_env 3 sample_session world_with_screenshot
                  = Returns tt _) by (vm_compute; reflexivity).
  eexists. split; [exact Hrun|].
  apply (proj1 (run_never_deletes _ _ _ _ _ Hrun)).
Defined.

(** ** The screenshots directory is made at most once *)









(** X10.  However it ends, [capture_frame] changes nothing of the window
    but the status text: the input fields, the preview and the Current Frame
    stay, the ROS side is untouched, no directory disappears, and every file
    other than the screenshot being written keeps its content.  It returns
    unless a frame is there and [os.makedirs] raises, and is never left
    waiting. *)
Theorem capture_frame_touches_only_its_file (env : Env) (w : World) :
  let w' := world_of (capture_frame env w) in
  inputs (win w') = inputs (win w) ∧
  camera_feed (win w') = camera_feed (win w) ∧
  current_frame (win w') = current_frame (win w) ∧
  ros w' = ros w ∧
  dirs (fs w) ⊆ dirs (fs w') ∧
  (∀ q, q ≠ screenshot_path (timestamp_at env w) ->
        files (fs w') !! q = files (fs w) !! q) ∧
  ((∃ u, capture_frame env w = Returns tt u)
   ↔ current_frame (win w) = None ∨ makedirs_raises env w = None) ∧
  (∀ u, capture_frame env w ≠ Blocked u).
Proof.
  cbn zeta. destruct (capture_frame_keeps env w) as (Hin & Hcam & Hcur & Hros).
  do 4 (split; [done|]).
  destruct (current_frame (win w)) as [img|] eqn:Hframe.
  - rewrite (capture_frame_Some env w img Hframe).
    destruct (makedirs_raises env w) as [e|]; cbn [world_of].
    + split; [done|]. split; [done|]. split; [|done].
      split; [by intros [u Hu] | by intros [|]].
    + split.
      { rewrite captured_dirs. destruct (exists_answer env w); set_solver. }
      split.
      { intros q Hq. by destruct (captured_files_lookup env img w q) as [|[]]. }
      split; [|done]. split; [by right | eauto].
  - rewrite (capture_frame_None env w Hframe). cbn [world_of].
    split; [done|]. split; [done|]. split; [|done]. split; [by left | eauto].
Qed.

(** ** File names sort by time *)

Lemma then_compare_assoc (a b c : comparison) :
  then_compare (then_compare a b) c = then_compare a (then_compare b c).
Proof. by destruct a. Qed.

Lemma compare_tens (n m : nat) :
  (n ?= m) = then_compare (n / 10 ?= m / 10) (n mod 10 ?= m mod 10).
Proof.
  pose proof (Nat.div_mod_eq n 10) as Hn. pose proof (Nat.div_mod_eq m 10) as Hm.
  pose proof (Nat.mod_upper_bound n 10 ltac:(lia)) as Hn'.
  pose proof (Nat.mod_upper_bound m 10 ltac:(lia)) as Hm'.
  revert Hn Hm Hn' Hm'.
  generalize (n / 10), (n mod 10), (m / 10), (m mod 10).
  intros q r q' r' -> -> Hr Hr'.
  destruct (Nat.compare_spec q q') as [-> | Hlt | Hgt]; cbn [then_compare].
  - destruct (Nat.compare_spec r r') as [-> | Hlt | Hgt].
    + apply Nat.compare_refl.
    + apply Nat.compare_lt_iff. lia.
    + apply Nat.compare_gt_iff. lia.
  - apply Nat.compare_lt_iff. lia.
  - apply Nat.compare_gt_iff. lia.
Qed.

Lemma compare_digit (x y : nat) :
  Ascii.compare (digit x) (digit y) = (x mod 10 ?= y mod 10).
Proof.
  unfold digit.
  pose proof (Nat.mod_upper_bound x 10 ltac:(lia)) as Hx.
  pose proof (Nat.mod_upper_bound y 10 ltac:(lia)) as Hy.
  revert Hx Hy. generalize (x mod 10), (y mod 10). intros a b Ha Hb.
  do 10 (destruct a as [|a]; [do 10 (destruct b as [|b]; [reflexivity|]); lia|]).
  lia.
Qed.

(** A number below 100 against its two printed digits. *)
Lemma compare_two_digits (n m : nat) :
  n < 100 -> m < 100 ->
  then_compare (Ascii.compare (digit (n / 10)) (digit (m / 10)))
               (Ascii.compare (digit n) (digit m))
  = (n ?= m).
Proof.
  intros Hn Hm. rewrite !compare_digit, (compare_tens n m).
  by rewrite (Nat.mod_small (n / 10)), (Nat.mod_small (m / 10))
    by (apply Nat.Div0.div_lt_upper_bound; lia).
Qed.

(** A number below 10000 against its four printed digits. *)
Lemma compare_four_digits (n m : nat) :
  n < 100 * 100 -> m < 100 * 100 ->
  then_compare (Ascii.compare (digit (n / 1000)) (digit (m / 1000)))
    (then_compare (Ascii.compare (digit (n / 100)) (digit (m / 100)))
       (then_compare (Ascii.compare (digit (n / 10)) (digit (m / 10)))
                     (Ascii.compare (digit n) (digit m))))
  = (n ?= m).
Proof.
  intros Hn Hm. rewrite !compare_digit.
  rewrite (compare_tens n m), (compare_tens (n / 10) (m / 10)),
    (compare_tens (n / 10 / 10) (m / 10 / 10)).
  rewrite !Nat.Div0.div_div. change (10 * 10) with 100. change (100 * 10) with 1000.
  rewrite (Nat.mod_small (n / 1000)), (Nat.mod_small (m / 1000))
    by (apply Nat.Div0.div_lt_upper_bound; lia).
  by rewrite !then_compare_assoc.
Qed.

Lemma string_compare_cons (c1 c2 : ascii) (s1 s2 : string) :
  String.compare (String c1 s1) (String c2 s2)
  = then_compare (Ascii.compare c1 c2) (String.compare s1 s2).
Proof. cbn [String.compare]. by destruct (Ascii.compare c1 c2). Qed.

Lemma append_cons (c : ascii) (s t : string) :
  String c s +:+ t = String c (s +:+ t).
Proof. reflexivity. Qed.

Lemma append_nil (t : string) : "" +:+ t = t.
Proof. reflexivity. Qed.

Lemma string_compare_refl (s : string) : String.compare s s = Eq.
Proof.
  induction s as [|c s IH]; [done|].
  rewrite string_compare_cons, IH. unfold Ascii.compare. by rewrite N.compare_refl.
Qed.

Lemma string_compare_prefix (p s1 s2 : string) :
  String.compare (p +:+ s1) (p +:+ s2) = String.compare s1 s2.
Proof.
  induction p as [|c p IH]; [done|].
  rewrite !append_cons, string_compare_cons, IH.
  unfold Ascii.compare. by rewrite N.compare_refl.
Qed.

(** Timestamps of valid clock readings compare as the readings do. *)
Lemma strftime_compare (a b : datetime) :
  valid_datetime a -> valid_datetime b ->
  String.compare (strftime a "%Y-%m-%d_%H:%M:%S" +:+ ".png")
                 (strftime b "%Y-%m-%d_%H:%M:%S" +:+ ".png")
  = compare_seconds a b.
Proof.
  intros (Hy & Hmo & Hd & Hh & Hmi & Hs) (Hy' & Hmo' & Hd' & Hh' & Hmi' & Hs').
  rewrite !strftime_chars, !append_cons, !append_nil.
  rewrite !string_compare_cons.
  change (String.compare ".png" ".png") with Eq.
  change (Ascii.compare "-" "-") with Eq.
  change (Ascii.compare "_" "_") with Eq.
  change (Ascii.compare ":" ":") with Eq.
  cbn [then_compare].
  unfold compare_seconds.
  rewrite <- (compare_four_digits (year a) (year b)) by lia.
  rewrite <- (compare_two_digits (month a) (month b)) by lia.
  rewrite <- (compare_two_digits (day a) (day b)) by lia.
  rewrite <- (compare_two_digits (hour a) (hour b)) by lia.
  rewrite <- (compare_two_digits (minute a) (minute b)) by lia.
  rewrite <- (compare_two_digits (second a) (second b)) by lia.
  rewrite !then_compare_assoc.
  repeat (f_equal; []).
  by destruct (Ascii.compare (digit (second a)) (digit (second b))).
Qed.

Lemma compare_seconds_eq (a b : datetime) :
  compare_seconds a b = Eq ↔ same_second a b.
Proof.
  unfold compare_seconds, same_second, then_compare.
  destruct (Nat.compare_spec (year a) (year b));
    destruct (Nat.compare_spec (month a) (month b));
    destruct (Nat.compare_spec (day a) (day b));
    destruct (Nat.compare_spec (hour a) (hour b));
    destruct (Nat.compare_spec (minute a) (minute b));
    destruct (Nat.compare_spec (second a) (second b));
    split; try done; intros (? & ? & ? & ? & ? & ?); lia.
Qed.

(** X11.  Screenshot names sort by time: for two clock readings with a
    four-digit year (1000 to 9999) and fields in range, the paths
    [capture_frame] computes compare (as strings, character by character) the
    way the readings compare to the second; so listing the directory by name
    lists the screenshots in the order they were taken, and two paths are
    equal only for readings in the same second. *)
Theorem screenshot_paths_sort_by_time (a b : datetime) :
  valid_datetime a -> valid_datetime b ->
  let path dt :=
    os_path_join "screenshots"
      ("camera_feed_screenshot_" +:+ strftime dt "%Y-%m-%d_%H:%M:%S" +:+ ".png") in
  String.compare (path a) (path b) = compare_seconds a b ∧
  (path a = path b ↔ same_second a b).
Proof.
  intros Ha Hb path.
  assert (Hcmp : String.compare (path a) (path b) = compare_seconds a b).
  { subst path. cbn beta. rewrite !screenshot_path_join.
    unfold screenshot_path.
    rewrite (string_compare_prefix "screenshots/camera_feed_screenshot_").
    by apply strftime_compare. }
  split; [exact Hcmp|].
  rewrite <- compare_seconds_eq, <- Hcmp. split.
  - intros ->. apply string_compare_refl.
  - apply String.compare_eq_iff.
Qed.

Lemma screenshot_paths_sort_by_time_witness :
  String.compare
    "screenshots/camera_feed_screenshot_2024-03-09_14:05:07.png"
    "screenshots/camera_feed_screenshot_2024-03-09_14:05:08.png" = Lt.
Proof.
  assert (Ha : valid_datetime (clock sample_env 0)).
  { unfold valid_datetime. vm_compute. repeat split; lia. }
  assert (Hb : valid_datetime (clock sample_env 4)).
  { unfold valid_datetime. vm_compute. repeat split; lia. }
  exact (proj1 (screenshot_paths_sort_by_time (clock sample_env 0) (clock sample_env 4)
                  Ha Hb)).
Defined.

(** Two valid clock readings with the same screenshot path are in the same
    second. *)
Lemma screenshot_path_same_second (a b : datetime) :
  valid_datetime a -> valid_datetime b ->
  screenshot_path (strftime a "%Y-%m-%d_%H:%M:%S")
  = screenshot_path (strftime b "%Y-%m-%d_%H:%M:%S") ->
  same_second a b.
Proof.
  intros Ha Hb Hpath. apply compare_seconds_eq.
  assert (Hcmp : String.compare (screenshot_path (strftime a "%Y-%m-%d_%H:%M:%S"))
                                (screenshot_path (strftime b "%Y-%m-%d_%H:%M:%S"))
                 = compare_seconds a b).
  { unfold screenshot_path.
    rewrite (string_compare_prefix "screenshots/camera_feed_screenshot_").
    exact (strftime_compare a b Ha Hb). }
  rewrite <- Hcmp, Hpath. apply string_compare_refl.
Qed.

(** After a capture that wrote its file the directory is there, no other
    directory has appeared, and the calls still to come are carried out. *)
Lemma captured_ready (env : Env) (img : QImage) (w : World) (k : nat) :
  isNull img = false ->
  free_or_directory (fs w) "screenshots" ->
  screenshot_path (timestamp_at env w) ∉ dirs (fs w) ->
  no_fault env w (3 + k) ->
  makedirs_raises env w = None ∧
  capture_saves env img w = true ∧
  "screenshots" ∈ dirs (fs (captured env img w)) ∧
  (∀ q, q ≠ "screenshots" -> q ∉ dirs (fs w) -> q ∉ dirs (fs (captured env img w))) ∧
  no_fault env (captured env img w) k.
Proof.
  intros Hpix Hdir Htarget Hok.
  destruct (capture_saves_true env img w Hpix Hdir Htarget)
    as (Hraise & Hsave & Hthere).
  { apply (no_fault_le env w (3 + k)); [|done].
    destruct (path_exists (fs w) "screenshots"); lia. }
  split; [done|]. split; [done|]. rewrite captured_dirs, Hthere. split; [|split].
  - destruct (path_exists (fs w) "screenshots") eqn:Hex; [|set_solver].
    destruct Hdir as [Hfree | Hin]; [|done].
    unfold path_lexists in Hfree. by rewrite Hex in Hfree.
  - intros q Hq Hnot. destruct (path_exists (fs w) "screenshots"); set_solver.
  - intros i Hi. rewrite length_calls_captured, <- Nat.add_assoc. apply Hok.
    destruct (exists_answer env w); lia.
Qed.

(** X12.  Two captures whose clock readings fall in different seconds compute
    two different paths, each named after its own reading.  When both saves
    succeed (a frame with pixels, the path [screenshots] free or a directory,
    no directory at either output path, no call refused) the second capture
    leaves the first file in place: both screenshots are on disk
    afterwards. *)
Theorem capture_frame_twice_different_seconds (env : Env) (w : World) (img : QImage) :
  current_frame (win w) = Some img ->
  valid_datetime (clock env (clock_reads w)) ->
  valid_datetime (clock env (S (clock_reads w))) ->
  ¬ same_second (clock env (clock_reads w)) (clock env (S (clock_reads w))) ->
  let path1 :=
    screenshot_path (strftime (clock env (clock_reads w)) "%Y-%m-%d_%H:%M:%S") in
  let path2 :=
    screenshot_path (strftime (clock env (S (clock_reads w))) "%Y-%m-%d_%H:%M:%S") in
  path1 ≠ path2 ∧
  (isNull img = false ->
   free_or_directory (fs w) "screenshots" ->
   path1 ∉ dirs (fs w) -> path2 ∉ dirs (fs w) ->
   no_fault env w 5 ->
   ∃ w1 w2,
     capture_frame env w = Returns tt w1 ∧
     capture_frame env w1 = Returns tt w2 ∧
     saves (fs_calls w2) = saves (fs_calls w) ++ [path1; path2] ∧
     files (fs w2) !! path1 = Some (PNG img) ∧
     files (fs w2) !! path2 = Some (PNG img)).
Proof.
  intros Hframe Ha Hb Hdiff path1 path2.
  assert (Hne : path1 ≠ path2).
  { intros Heq. apply Hdiff.
    exact (screenshot_path_same_second _ _ Ha Hb Heq). }
  split; [exact Hne|].
  intros Hpix Hdir Htarget1 Htarget2 Hok.
  assert (Hp1 : screenshot_path (timestamp_at env w) = path1) by reflexivity.
  assert (Hp2 : screenshot_path (timestamp_at env (captured env img w)) = path2)
    by reflexivity.
  clearbody path1 path2.
  destruct (captured_ready env img w 2 Hpix Hdir) as (Hraise & Hsave & Hmade & Hkeep & Hok1);
    [by rewrite Hp1 | done |].
  destruct (capture_saves_true env img (captured env img w) Hpix (or_intror Hmade))
    as (Hraise1 & Hsave1 & _).
  { rewrite Hp2. apply Hkeep; [|done].
    rewrite <- Hp2. apply screenshot_path_not_folder. }
  { apply (no_fault_le _ _ 2); [|done].
    by rewrite (path_exists_captured env img w Hraise). }
  exists (captured env img w), (captured env img (captured env img w)).
  split; [by rewrite (capture_frame_Some env w img Hframe), Hraise|].
  split.
  { rewrite (capture_frame_Some env (captured env img w) img Hframe).
    by rewrite Hraise1. }
  split.
  { by rewrite !saves_captured, Hp1, Hp2, <- app_assoc. }
  rewrite (captured_files env img (captured env img w)), Hsave1, Hp2.
  rewrite (captured_files env img w), Hsave, Hp1.
  split.
  - rewrite lookup_insert_ne by done. apply lookup_insert_eq.
  - apply lookup_insert_eq.
Qed.

Lemma capture_frame_twice_different_seconds_witness :
  ∃ w1 w2,
    capture_frame ticking_env world_with_frame = Returns tt w1 ∧
    capture_frame ticking_env w1 = Returns tt w2 ∧
    saves (fs_calls w2)
    = ["screenshots/camera_feed_screenshot_2024-03-09_14:05:07.png";
       "screenshots/camera_feed_screenshot_2024-03-09_14:05:08.png"] ∧
    files (fs w2) !! "screenshots/camera_feed_screenshot_2024-03-09_14:05:07.png"
    = Some (PNG sample_frame) ∧
    files (fs w2) !! "screenshots/camera_feed_screenshot_2024-03-09_14:05:08.png"
    = Some (PNG sample_frame).
Proof.
  assert (Ha : valid_datetime (clock ticking_env 0)).
  { unfold valid_datetime. vm_compute. repeat split; lia. }
  assert (Hb : valid_datetime (clock ticking_env 1)).
  { unfold valid_datetime. vm_compute. repeat split; lia. }
  destruct (capture_frame_twice_different_seconds ticking_env world_with_frame
              sample_frame eq_refl Ha Hb) as (_ & Hboth).
  { intros (_ & _ & _ & _ & _ & Hs). discriminate Hs. }
  apply Hboth.
  - reflexivity.
  - left. reflexivity.
  - intros Hin. vm_compute in Hin. discriminate Hin.
  - intros Hin. vm_compute in Hin. discriminate Hin.
  - intros i Hi. reflexivity.
Defined.

(** ** The status field and the error log *)







